(** * A call-flow relay with a flat-file message log

    Shallow embedding of [utils.py] (the message store: [load_messages],
    [save_message], [get_call_history]) and of the [callflow] handler of
    [main.py], followed by the properties of the store and of the prompt the
    handler assembles.

    - A stored message is the dictionary the handler writes: the keys
      [call_id] (a string or [None]), [request], [response] and [timestamp]
      (a key that may be missing, which is what [save_message] and the sort
      key of [load_messages] test for).
    - The backing store is a file system, a map from file names to contents; a
      content is either text [json.load] rejects or a JSON value, an array of
      messages or something else.
    - Python exceptions are explicit: every operation runs in a state and
      exception monad over the world (files, pending I/O faults, the clock,
      the log, and the prompts handed to the completion service).
    - Strings are byte strings holding UTF-8; the lexicographic order on
      bytes is the order of Python's [str] on code points. *)

From Stdlib Require Import String Ascii.
From Stdlib Require Import List ZArith Lia Bool Arith.
From Stdlib Require Import Permutation Sorted.
Import ListNotations.

Local Open Scope string_scope.
Local Open Scope list_scope.

(** ** Python built-ins used by the source *)

Module Py.

Section Lists.
Context {A : Type}.

(** [l[start:]] for an arbitrary integer [start]: a negative [start] counts
    from the end, and the bound is clamped to [0 .. len(l)]. *)
Definition slice_from (start : Z) (l : list A) : list A :=
  let n := Z.of_nat (length l) in
  let lo := if (start <? 0)%Z then Z.max (start + n) 0 else Z.min start n in
  skipn (Z.to_nat lo) l.

(** [l.insert(i, x)] for a natural index. *)
Definition insert (i : nat) (x : A) (l : list A) : list A :=
  firstn i l ++ x :: skipn i l.

(** [l.sort(key=key)] on string keys.  Python's sort is stable: elements
    with equal keys keep their relative order.  [sort_insert x l] puts [x]
    in front of the first element whose key is not smaller. *)
Variable key : A -> string.

Fixpoint sort_insert (x : A) (l : list A) : list A :=
  match l with
  | [] => [x]
  | y :: l' =>
      if String.ltb (key y) (key x) then y :: sort_insert x l'
      else x :: y :: l'
  end.

Fixpoint sort (l : list A) : list A :=
  match l with
  | [] => []
  | x :: l' => sort_insert x (sort l')
  end.

(** [key(x) <= key(y)], as [not (key(y) < key(x))], and [key(x) < key(y)]. *)
Definition le_by (x y : A) : Prop := String.ltb (key y) (key x) = false.

Definition lt_by (x y : A) : Prop := String.ltb (key x) (key y) = true.
End Lists.

(** Truth value of an optional string: [None] and [""] are falsy. *)
Definition truthy (s : option string) : bool :=
  match s with
  | None => false
  | Some s => negb (String.eqb s "")
  end.

(** [a == b] on values that are a string or [None]. *)
Definition opt_eqb (a b : option string) : bool :=
  match a, b with
  | None, None => true
  | Some x, Some y => String.eqb x y
  | _, _ => false
  end.

End Py.

(** ** Data model *)

(** One request/response pair, as a dictionary with these keys.
    [timestamp = None] is a dictionary without the key ['timestamp'];
    [call_id = None] is the value [None] (or a missing key: [msg.get]
    returns [None] for both). *)
Record message : Type := mkMessage {
  call_id : option string;
  request : string;
  response : string;
  timestamp : option string
}.

(** Entries handed to the completion service. *)
Inductive langchain_message : Type :=
| SystemMessage (content : string)
| HumanMessage (content : string)
| AIMessage (content : string).

(** The exceptions that can occur; all are subclasses of [Exception]. *)
Inductive exn : Type :=
| JSONDecodeError
| OSError
| AttributeError
| ServiceError.

Inductive result (A : Type) : Type :=
| Ok (a : A)
| Raise (e : exn).
Arguments Ok {A} a.
Arguments Raise {A} e.

(** What [json.load] finds in a file. *)
Inductive json_value : Type :=
| JArray (l : list message)
| JOther.

Inductive file_content : Type :=
| Invalid
| Json (v : json_value).

(** Outcome scheduled for an [open] call and the transfer that follows it:
    [OpenFault] makes [open] raise and leaves the file alone, [IOFault] lets
    [open] succeed and makes the read or write raise. *)
Inductive fault : Type :=
| NoFault
| OpenFault
| IOFault.

(** The lines the source sends to its logger. *)
Inductive log_entry : Type :=
| InfoCreating (filename : string)
| InfoLoaded (recent : nat) (filename : string) (total : nat)
| ErrorDecoding (filename : string)
| ErrorLoading (filename : string) (e : exn)
| InfoSaved (filename : string) (total : nat)
| ErrorSaving (filename : string) (e : exn)
| InfoFound (n : nat) (cid : string)
| ErrorHistory (cid : string) (e : exn)
| InfoCallflow (cid : option string) (body_text : string).

Record World : Type := mkWorld {
  files : string -> option file_content;
  faults : list fault;
  now : string;
  log : list log_entry;
  sent : list (list langchain_message)
}.

(** ** State and exception monad *)

Definition M (A : Type) : Type := World -> World * result A.

Definition ret {A} (a : A) : M A := fun w => (w, Ok a).

Definition raise {A} (e : exn) : M A := fun w => (w, Raise e).

Definition bind {A B} (m : M A) (k : A -> M B) : M B :=
  fun w =>
    match m w with
    | (w', Ok a) => k a w'
    | (w', Raise e) => (w', Raise e)
    end.

(** [try: body except Exception as e: handler(e)]; the effects of [body] up
    to the exception stay. *)
Definition try_except {A} (body : M A) (handler : exn -> M A) : M A :=
  fun w =>
    match body w with
    | (w', Ok a) => (w', Ok a)
    | (w', Raise e) => handler e w'
    end.

Notation "x <- m ;; k" := (bind m (fun x => k))
  (at level 61, m at next level, right associativity).
Notation "m ;; k" := (bind m (fun _ => k))
  (at level 61, right associativity).

(** ** The world's primitive operations *)

Definition logger (e : log_entry) : M unit :=
  fun w => (mkWorld (files w) (faults w) (now w) (log w ++ [e]) (sent w), Ok tt).

(** [datetime.now().isoformat()] *)
Definition datetime_now : M string := fun w => (w, Ok (now w)).

Definition os_path_exists (filename : string) : M bool :=
  fun w => (w, Ok (match files w filename with Some _ => true | None => false end)).

Definition next_fault : M fault :=
  fun w => (mkWorld (files w) (tl (faults w)) (now w) (log w) (sent w),
            Ok (hd NoFault (faults w))).

Definition put_file (filename : string) (c : file_content) : M unit :=
  fun w =>
    (mkWorld (fun f => if String.eqb f filename then Some c else files w f)
             (faults w) (now w) (log w) (sent w), Ok tt).

(** [with open(filename, "w") as f: json.dump(ms, f, ...)].  A write that
    fails after [open] has truncated the file leaves text that is not JSON. *)
Definition open_w_json_dump (filename : string) (ms : list message) : M unit :=
  f <- next_fault ;;
  match f with
  | NoFault => put_file filename (Json (JArray ms))
  | OpenFault => raise OSError
  | IOFault => put_file filename Invalid ;; raise OSError
  end.

(** [with open(filename, "r") as f: json.load(f)] *)
Definition open_r_json_load (filename : string) : M json_value :=
  f <- next_fault ;;
  match f with
  | NoFault =>
      fun w =>
        match files w filename with
        | None => (w, Raise OSError)
        | Some Invalid => (w, Raise JSONDecodeError)
        | Some (Json v) => (w, Ok v)
        end
  | OpenFault | IOFault => raise OSError
  end.

(** ** utils.py *)

(** The sort key [lambda x: x.get('timestamp', '')]. *)
Definition timestamp_key (x : message) : string :=
  match timestamp x with
  | Some t => t
  | None => ""
  end.

(** [all_messages.sort(key=...)]: only a list has [sort]. *)
Definition sort_by_timestamp (v : json_value) : M (list message) :=
  match v with
  | JArray l => ret (Py.sort timestamp_key l)
  | JOther => raise AttributeError
  end.

Definition load_messages (filename : string) (limit : Z) : M (list message) :=
  try_except
    (ex <- os_path_exists filename ;;
     if negb ex then
       logger (InfoCreating filename) ;;
       open_w_json_dump filename [] ;;
       ret []
     else
       v <- open_r_json_load filename ;;
       all_messages <- sort_by_timestamp v ;;
       let recent_messages :=
         if (Z.of_nat (length all_messages) >? limit)%Z
         then Py.slice_from (- limit) all_messages
         else all_messages in
       logger (InfoLoaded (length recent_messages) filename (length all_messages)) ;;
       ret recent_messages)
    (fun e =>
       match e with
       | JSONDecodeError => logger (ErrorDecoding filename) ;; ret []
       | _ => logger (ErrorLoading filename e) ;; ret []
       end).

(** The default of [load_messages]'s [limit] parameter. *)
Definition default_limit : Z := 10.

(** [if 'timestamp' not in message_data: message_data['timestamp'] = t] *)
Definition backfill_timestamp (t : string) (message_data : message) : message :=
  match timestamp message_data with
  | Some _ => message_data
  | None =>
      mkMessage (call_id message_data) (request message_data)
                (response message_data) (Some t)
  end.

Definition save_message (message_data : message) (filename : string) : M bool :=
  try_except
    (messages <- load_messages filename default_limit ;;
     t <- datetime_now ;;
     let message_data := backfill_timestamp t message_data in
     let messages := messages ++ [message_data] in
     open_w_json_dump filename messages ;;
     logger (InfoSaved filename (length messages)) ;;
     ret true)
    (fun e => logger (ErrorSaving filename e) ;; ret false).

Definition get_call_history (cid : string) (filename : string) : M (list message) :=
  try_except
    (messages <- load_messages filename default_limit ;;
     let call_messages :=
       filter (fun msg => Py.opt_eqb (call_id msg) (Some cid)) messages in
     logger (InfoFound (length call_messages) cid) ;;
     ret call_messages)
    (fun e => logger (ErrorHistory cid e) ;; ret []).

(** The default of the [filename] parameters. *)
Definition messages_json : string := "messages.json".

(** ** main.py *)

(** What the handler reads from the inbound request: the decoded body and
    [request.headers.get("call-id")]. *)
Record Request : Type := mkRequest {
  body_text : string;
  header_call_id : option string
}.

(** The content of the system message. *)
Definition persona : string :=
"
    You are Instant Alfred, a helpful insurance agent working for insurancemarket.ae
    You are given a conversation history and a new message.
    You need to respond to the new message based on the conversation history.
    You are given the following information:
    - The conversation history
    - The new message

    Try to keep the response short and concise and human like with a touch of humor.
    dont indulge in any other conversation except the one related to the insurance.
    ".

(** The loop over [call_messages]: each turn extends the list by a human and
    an assistant entry. *)
Definition extend_with_history (call_messages : list message)
  (langchain_messages : list langchain_message) : list langchain_message :=
  fold_left
    (fun acc json_message =>
       acc ++ [HumanMessage (request json_message);
               AIMessage (response json_message)])
    call_messages langchain_messages.

(** The entry sequence built from the history and the current body. *)
Definition build_langchain_messages (call_messages : list message)
  (body : string) : list langchain_message :=
  let langchain_messages := extend_with_history call_messages [] in
  let langchain_messages := langchain_messages ++ [HumanMessage body] in
  Py.insert 0 (SystemMessage persona) langchain_messages.

(** The handler up to the service call: fetch the history, build the
    entries, log the request. *)
Definition callflow_prompt (req : Request) : M (list langchain_message) :=
  let cid := header_call_id req in
  call_messages <-
    (if Py.truthy cid then
       match cid with
       | Some c => get_call_history c messages_json
       | None => ret []
       end
     else ret []) ;;
  let langchain_messages := build_langchain_messages call_messages (body_text req) in
  logger (InfoCallflow cid (body_text req)) ;;
  ret langchain_messages.

Section Handler.
(** The completion service: the reply it generates for a prompt, or a
    failure. *)
Variable llm : list langchain_message -> result string.

(** [llm.invoke(langchain_messages).content]; the prompt is recorded in
    [sent]. *)
Definition llm_invoke (langchain_messages : list langchain_message) : M string :=
  fun w =>
    (mkWorld (files w) (faults w) (now w) (log w)
             (sent w ++ [langchain_messages]),
     llm langchain_messages).

Definition callflow (req : Request) : M string :=
  langchain_messages <- callflow_prompt req ;;
  response <- llm_invoke langchain_messages ;;
  t <- datetime_now ;;
  let message_data :=
    mkMessage (header_call_id req) (body_text req) response (Some t) in
  save_message message_data messages_json ;;
  ret response.
End Handler.

(** ** Relations used in the statements *)

(** [a <= b] on strings, as Python's [not (b < a)]. *)
Definition str_le (a b : string) : Prop := String.ltb b a = false.

(** Ascending, possibly equal, timestamp keys. *)
Definition key_le : message -> message -> Prop := Py.le_by timestamp_key.

(** Strictly ascending timestamp keys. *)
Definition key_lt : message -> message -> Prop := Py.lt_by timestamp_key.

(** The last [k] elements of a list. *)
Definition last_n {A} (k : nat) (l : list A) : list A :=
  skipn (length l - k) l.

Definition has_timestamp (m : message) : Prop := timestamp m <> None.

(** Every record of the array in the file, if there is one, has a timestamp. *)
Definition stamped_store (filename : string) (w : World) : Prop :=
  forall l, files w filename = Some (Json (JArray l)) -> Forall has_timestamp l.

(** The fault scheduled for the second [open] to come: in [save_message],
    the one that writes. *)
Definition write_fault (w : World) : fault := hd NoFault (tl (faults w)).

(** The pair of entries one historical turn contributes to the prompt. *)
Definition turn_entries (m : message) : list langchain_message :=
  [HumanMessage (request m); AIMessage (response m)].

(** The list [load_messages] hands back when the file holds the array [l] and
    the read goes through. *)
Definition recent_of (limit : Z) (l : list message) : list message :=
  let all_messages := Py.sort timestamp_key l in
  if (Z.of_nat (length all_messages) >? limit)%Z
  then Py.slice_from (- limit) all_messages
  else all_messages.

(** The store after a series of [save_message] calls, the environment being
    free to schedule faults and move the clock between two calls. *)
Inductive appended_from (filename : string) (w0 : World) : World -> Prop :=
| appended_nil : appended_from filename w0 w0
| appended_env w fs t :
    appended_from filename w0 w ->
    appended_from filename w0 (mkWorld (files w) fs t (log w) (sent w))
| appended_save w m :
    appended_from filename w0 w ->
    appended_from filename w0 (fst (save_message m filename w)).

(** ** Sample stores *)

Definition sample_message (cid ts : string) : message :=
  mkMessage (Some cid) ("q-" ++ ts)%string ("a-" ++ ts)%string (Some ts).

Definition store_of (c : option file_content) : string -> option file_content :=
  fun f => if String.eqb f messages_json then c else None.

(** No file yet, no fault scheduled. *)
Definition fresh_world : World :=
  mkWorld (store_of None) [] "2024-05-01T10:00:00" [] [].

(** A store holding the array [l], no fault scheduled. *)
Definition world_with (l : list message) : World :=
  mkWorld (store_of (Some (Json (JArray l)))) [] "2024-05-01T10:00:00" [] [].

(** A store whose text is not JSON. *)
Definition corrupt_world : World :=
  mkWorld (store_of (Some Invalid)) [] "2024-05-01T10:00:00" [] [].

(** A store holding [l] whose next [open] fails. *)
Definition unreadable_world (l : list message) : World :=
  mkWorld (store_of (Some (Json (JArray l)))) [OpenFault] "2024-05-01T10:00:00" [] [].

Definition three_messages : list message :=
  [sample_message "B" "2024-03"; sample_message "A" "2024-01";
   sample_message "A" "2024-02"].

Definition eleven_messages : list message :=
  map (sample_message "A")
    ["t01"; "t02"; "t03"; "t04"; "t05"; "t06"; "t07"; "t08"; "t09"; "t10"; "t11"].

(** Three turns of call ["A"], then twelve later turns of call ["B"]. *)
Definition old_turns_A : list message :=
  map (sample_message "A") ["t01"; "t02"; "t03"].

Definition later_turns_B : list message :=
  map (sample_message "B") ["t04"; "t05"].

Definition recent_turns_B : list message :=
  map (sample_message "B")
    ["t06"; "t07"; "t08"; "t09"; "t10"; "t11"; "t12"; "t13"; "t14"; "t15"].

Definition fifteen_messages : list message :=
  recent_turns_B ++ old_turns_A ++ later_turns_B.

Definition unstamped_message : message :=
  mkMessage (Some "A") "hi" "hello" None.

Definition sample_llm (msgs : list langchain_message) : result string :=
  Ok "Sure, let me check your policy.".

(** A store holding valid JSON that is not an array. *)
Definition nonarray_world : World :=
  mkWorld (store_of (Some (Json JOther))) [] "2024-05-01T10:00:00" [] [].

(** Two records with the same timestamp around an older one. *)
Definition tied_messages : list message :=
  [mkMessage (Some "A") "first" "one" (Some "2024-02");
   sample_message "B" "2024-01";
   mkMessage (Some "A") "second" "two" (Some "2024-02")].

Definition failing_llm (msgs : list langchain_message) : result string :=
  Raise ServiceError.

(** ** Names used in the further statements *)

(** The test of [get_call_history]'s comprehension. *)
Definition of_call (cid : string) (msg : message) : bool :=
  Py.opt_eqb (call_id msg) (Some cid).

(** The record [callflow] saves for a request answered by [reply] at [t]. *)
Definition turn_of (req : Request) (reply t : string) : message :=
  mkMessage (header_call_id req) (body_text req) reply (Some t).

(** ** Tactics *)

(** Unfold the monad and the store operations all the way down. *)
Ltac run :=
  cbv beta iota zeta delta
    [load_messages save_message get_call_history try_except bind ret raise
     logger datetime_now os_path_exists open_w_json_dump open_r_json_load
     sort_by_timestamp next_fault put_file negb];
  cbn [files faults now log sent fst snd].

(** Unfold [save_message] and [get_call_history] down to their
    [load_messages] call. *)
Ltac run_outer :=
  cbv beta iota zeta delta
    [save_message get_call_history try_except bind ret raise logger
     datetime_now open_w_json_dump next_fault put_file];
  cbn [files faults now log sent fst snd].

(** Split a membership in a literal list into its cases. *)
Ltac in_cases :=
  repeat match goal with
         | H : _ \/ _ |- _ => destruct H as [<-|H]
         | H : False |- _ => destruct H
         end.

(** * Properties *)

(** ** The order on strings *)

Lemma ascii_compare_refl (a : ascii) : Ascii.compare a a = Eq.
Proof. unfold Ascii.compare. apply N.compare_refl. Qed.

Lemma ascii_compare_lt_trans (a b c : ascii) :
  Ascii.compare a b = Lt -> Ascii.compare b c = Lt -> Ascii.compare a c = Lt.
Proof.
  unfold Ascii.compare. rewrite !N.compare_lt_iff. apply N.lt_trans.
Qed.

Lemma string_compare_refl (s : string) : String.compare s s = Eq.
Proof.
  induction s as [|a s IH]; simpl; [reflexivity|].
  now rewrite ascii_compare_refl.
Qed.

Lemma string_compare_lt_trans (s1 s2 s3 : string) :
  String.compare s1 s2 = Lt -> String.compare s2 s3 = Lt ->
  String.compare s1 s3 = Lt.
Proof.
  revert s2 s3.
  induction s1 as [|a s1 IH]; intros [|b s2] [|c s3]; simpl;
    try discriminate; try reflexivity.
  destruct (Ascii.compare a b) eqn:Hab; try discriminate;
    destruct (Ascii.compare b c) eqn:Hbc; try discriminate; intros H12 H23.
  - apply Ascii.compare_eq_iff in Hab, Hbc. subst.
    rewrite ascii_compare_refl. eauto.
  - apply Ascii.compare_eq_iff in Hab. subst. now rewrite Hbc.
  - apply Ascii.compare_eq_iff in Hbc. subst. now rewrite Hab.
  - now rewrite (ascii_compare_lt_trans _ _ _ Hab Hbc).
Qed.

Lemma ltb_irrefl (s : string) : String.ltb s s = false.
Proof. unfold String.ltb. now rewrite string_compare_refl. Qed.

Lemma ltb_trans (a b c : string) :
  String.ltb a b = true -> String.ltb b c = true -> String.ltb a c = true.
Proof.
  unfold String.ltb.
  destruct (String.compare a b) eqn:Hab; try discriminate.
  destruct (String.compare b c) eqn:Hbc; try discriminate.
  now rewrite (string_compare_lt_trans _ _ _ Hab Hbc).
Qed.

Lemma ltb_asym (a b : string) :
  String.ltb a b = true -> String.ltb b a = false.
Proof.
  unfold String.ltb. rewrite (String.compare_antisym b a).
  destruct (String.compare a b); simpl; congruence.
Qed.

Lemma ltb_connected (a b : string) :
  String.ltb a b = false -> String.ltb b a = false -> a = b.
Proof.
  unfold String.ltb. rewrite (String.compare_antisym b a).
  destruct (String.compare a b) eqn:Hab; simpl; try discriminate.
  intros _ _. now apply String.compare_eq_iff.
Qed.

Lemma ltb_neq_total (a b : string) :
  a <> b -> String.ltb a b = false -> String.ltb b a = true.
Proof.
  intros Hne Hab. destruct (String.ltb b a) eqn:Hba; [reflexivity|].
  exfalso. apply Hne. now apply ltb_connected.
Qed.

Lemma ltb_le_lt_trans (a b c : string) :
  String.ltb b a = false -> String.ltb b c = true -> String.ltb a c = true.
Proof.
  intros Hab Hbc. destruct (string_dec a b) as [->|Hne]; [assumption|].
  apply ltb_trans with b; [|assumption].
  apply ltb_neq_total; [congruence | assumption].
Qed.

Lemma ltb_le_trans (a b c : string) :
  String.ltb b a = false -> String.ltb c b = false -> String.ltb c a = false.
Proof.
  intros Hab Hbc. destruct (String.ltb c a) eqn:Hca; [|reflexivity].
  rewrite (ltb_le_lt_trans _ _ _ Hbc Hca) in Hab. discriminate.
Qed.

(** ** The stable sort *)

Section SortFacts.
Context {A : Type} (key : A -> string).

Local Notation "'kle'" := (Py.le_by key).
Local Notation "'klt'" := (Py.lt_by key).

Lemma sort_insert_perm (x : A) (l : list A) :
  Permutation (Py.sort_insert key x l) (x :: l).
Proof.
  induction l as [|y l IH]; simpl; [apply Permutation_refl|].
  destruct (String.ltb (key y) (key x)); [|apply Permutation_refl].
  apply perm_trans with (y :: x :: l); [now apply perm_skip | apply perm_swap].
Qed.

Lemma sort_perm (l : list A) : Permutation (Py.sort key l) l.
Proof.
  induction l as [|x l IH]; simpl; [constructor|].
  apply perm_trans with (x :: Py.sort key l);
    [apply sort_insert_perm | now apply perm_skip].
Qed.

Lemma sort_length (l : list A) : length (Py.sort key l) = length l.
Proof. apply Permutation_length, sort_perm. Qed.

Lemma sort_insert_sorted (x : A) (l : list A) :
  Sorted kle l -> Sorted kle (Py.sort_insert key x l).
Proof.
  induction 1 as [|y l Hs IH Hhd]; simpl; [repeat constructor|].
  destruct (String.ltb (key y) (key x)) eqn:Hyx.
  - constructor; [assumption|].
    destruct Hhd as [|z l Hyz]; simpl.
    + constructor. unfold Py.le_by. now apply ltb_asym.
    + destruct (String.ltb (key z) (key x));
        constructor; [assumption | unfold Py.le_by; now apply ltb_asym].
  - constructor; [now constructor | now constructor].
Qed.

Lemma sort_sorted (l : list A) : Sorted kle (Py.sort key l).
Proof.
  induction l as [|x l IH]; simpl; [constructor | now apply sort_insert_sorted].
Qed.

Lemma sort_insert_head (x : A) (l : list A) :
  HdRel kle x l -> Py.sort_insert key x l = x :: l.
Proof.
  intros [|y l' Hxy]; simpl; [reflexivity|].
  unfold Py.le_by in Hxy. now rewrite Hxy.
Qed.

Lemma sort_of_sorted (l : list A) : Sorted kle l -> Py.sort key l = l.
Proof.
  induction 1 as [|x l Hs IH Hhd]; simpl; [reflexivity|].
  rewrite IH. now apply sort_insert_head.
Qed.

Lemma sort_insert_comm (x y : A) (l : list A) :
  key x <> key y ->
  Py.sort_insert key x (Py.sort_insert key y l)
  = Py.sort_insert key y (Py.sort_insert key x l).
Proof.
  intros Hne. induction l as [|z l IH]; simpl.
  - destruct (String.ltb (key y) (key x)) eqn:Hyx.
    + now rewrite (ltb_asym _ _ Hyx).
    + rewrite (ltb_neq_total (key y) (key x)); [reflexivity | congruence | assumption].
  - destruct (String.ltb (key z) (key y)) eqn:Hzy;
      destruct (String.ltb (key z) (key x)) eqn:Hzx; simpl;
      rewrite ?Hzy, ?Hzx.
    + now rewrite IH.
    + now rewrite (ltb_le_lt_trans _ _ _ Hzx Hzy).
    + now rewrite (ltb_le_lt_trans _ _ _ Hzy Hzx).
    + destruct (String.ltb (key y) (key x)) eqn:Hyx.
      * now rewrite (ltb_asym _ _ Hyx).
      * rewrite (ltb_neq_total (key y) (key x)); [reflexivity | congruence | assumption].
Qed.

Lemma sort_perm_eq (l l' : list A) :
  NoDup (map key l) -> Permutation l l' -> Py.sort key l = Py.sort key l'.
Proof.
  intros Hnd Hp. induction Hp as [|x l l' Hp IH|x y l|l l' l'' Hp1 IH1 Hp2 IH2].
  - reflexivity.
  - simpl. rewrite IH; [reflexivity|]. now inversion Hnd.
  - simpl. apply sort_insert_comm.
    simpl in Hnd. inversion Hnd as [|? ? Hnotin _]; subst.
    intros Heq. apply Hnotin. left. now symmetry.
  - rewrite IH1 by assumption. apply IH2.
    apply Permutation_NoDup with (map key l); [|assumption].
    now apply Permutation_map.
Qed.

(** With distinct keys there is one ascending arrangement, the one [sort]
    computes. *)
Lemma sorted_perm_unique (l s : list A) :
  NoDup (map key l) -> Permutation s l -> Sorted kle s -> s = Py.sort key l.
Proof.
  intros Hnd Hp Hs.
  rewrite <- (sort_of_sorted s Hs).
  symmetry. apply sort_perm_eq; [assumption | now apply Permutation_sym].
Qed.

(** Stability: the elements of any one key keep their order. *)
Lemma sort_insert_stable (k : string) (x : A) (l : list A) :
  filter (fun y => String.eqb (key y) k) (Py.sort_insert key x l)
  = filter (fun y => String.eqb (key y) k) (x :: l).
Proof.
  induction l as [|y l IH]; [reflexivity|].
  simpl Py.sort_insert.
  destruct (String.ltb (key y) (key x)) eqn:Hyx; [|reflexivity].
  simpl in *. rewrite IH.
  destruct (String.eqb (key y) k) eqn:Hy; [|reflexivity].
  destruct (String.eqb (key x) k) eqn:Hx; [|reflexivity].
  apply String.eqb_eq in Hy, Hx. rewrite Hy, Hx, ltb_irrefl in Hyx.
  discriminate.
Qed.

Lemma sort_stable (k : string) (l : list A) :
  filter (fun y => String.eqb (key y) k) (Py.sort key l)
  = filter (fun y => String.eqb (key y) k) l.
Proof.
  induction l as [|x l IH]; [reflexivity|].
  simpl Py.sort. rewrite sort_insert_stable. simpl. now rewrite IH.
Qed.

Lemma sort_insert_app (x : A) (l1 l2 : list A) :
  (forall y, In y l2 -> klt x y) ->
  Py.sort_insert key x (l1 ++ l2) = Py.sort_insert key x l1 ++ l2.
Proof.
  intros Hlt. induction l1 as [|z l1 IH]; simpl.
  - destruct l2 as [|y l2]; [reflexivity|]. simpl.
    rewrite (ltb_asym (key x) (key y)); [reflexivity|].
    apply Hlt. now left.
  - destruct (String.ltb (key z) (key x)); [now rewrite IH | reflexivity].
Qed.

(** Sorting a block of older elements followed by newer ones sorts each
    block. *)
Lemma sort_app (l1 l2 : list A) :
  (forall x y, In x l1 -> In y l2 -> klt x y) ->
  Py.sort key (l1 ++ l2) = Py.sort key l1 ++ Py.sort key l2.
Proof.
  intros Hlt. induction l1 as [|x l1 IH]; [reflexivity|].
  simpl. rewrite IH by (intros; apply Hlt; [now right | assumption]).
  apply sort_insert_app.
  intros y Hy. apply Hlt; [now left|].
  apply (Permutation_in _ (sort_perm l2) Hy).
Qed.

Lemma sorted_strict (l : list A) :
  NoDup (map key l) -> Sorted kle l -> Sorted klt l.
Proof.
  intros Hnd Hs. induction Hs as [|x l Hs IH Hhd]; [constructor|].
  simpl in Hnd. inversion Hnd as [|? ? Hnotin Hnd']; subst.
  constructor; [now apply IH|].
  destruct Hhd as [|y l Hxy]; constructor.
  unfold Py.lt_by. apply ltb_neq_total; [|assumption].
  intros Heq. apply Hnotin. left. now symmetry.
Qed.
End SortFacts.

Lemma Sorted_skipn {A} (R : A -> A -> Prop) (n : nat) (l : list A) :
  Sorted R l -> Sorted R (skipn n l).
Proof.
  revert l. induction n as [|n IH]; intros l Hs; [assumption|].
  destruct l as [|x l]; [constructor|].
  simpl. apply IH. now inversion Hs.
Qed.

(** ** Slices *)

Lemma last_n_length {A} (k : nat) (l : list A) :
  length (last_n k l) = Nat.min (length l) k.
Proof. unfold last_n. rewrite length_skipn. lia. Qed.

Lemma last_n_all {A} (k : nat) (l : list A) :
  length l <= k -> last_n k l = l.
Proof.
  intros Hle. unfold last_n. now replace (length l - k) with 0 by lia.
Qed.

Lemma last_n_incl {A} (k : nat) (l : list A) (x : A) :
  In x (last_n k l) -> In x l.
Proof.
  unfold last_n. intros Hin.
  rewrite <- (firstn_skipn (length l - k) l). apply in_or_app. now right.
Qed.

Lemma last_n_app {A} (l1 l2 : list A) :
  last_n (length l2) (l1 ++ l2) = l2.
Proof.
  unfold last_n. rewrite length_app.
  replace (length l1 + length l2 - length l2) with (length l1 + 0) by lia.
  rewrite skipn_app, Nat.add_0_r, skipn_all.
  now replace (length l1 - length l1) with 0 by lia.
Qed.

(** [l[-k:]] is the last [k] elements when [0 < k]. *)
Lemma slice_from_neg {A} (k : Z) (l : list A) :
  (0 < k)%Z -> Py.slice_from (- k) l = last_n (Z.to_nat k) l.
Proof.
  intros Hk. unfold Py.slice_from, last_n.
  destruct (Z.ltb_spec (- k) 0) as [_|Hge]; [|lia].
  f_equal. lia.
Qed.

(** [l[-0:]] is [l[0:]], the whole list. *)
Lemma slice_from_zero {A} (l : list A) : Py.slice_from (- 0) l = l.
Proof.
  unfold Py.slice_from. simpl.
  now replace (Z.to_nat (Z.min 0 (Z.of_nat (length l)))) with 0 by lia.
Qed.

(** The truncation of [load_messages] for a positive limit. *)
Lemma recent_messages_eq {A} (limit : Z) (l : list A) :
  (0 < limit)%Z ->
  (if (Z.of_nat (length l) >? limit)%Z then Py.slice_from (- limit) l else l)
  = last_n (Z.to_nat limit) l.
Proof.
  intros Hk. destruct (Z.gtb_spec (Z.of_nat (length l)) limit) as [Hgt|Hle].
  - now apply slice_from_neg.
  - symmetry. apply last_n_all. lia.
Qed.

(** ** Running [load_messages] *)

Lemma load_messages_array (filename : string) (limit : Z) (w : World)
  (l : list message) :
  files w filename = Some (Json (JArray l)) ->
  hd NoFault (faults w) = NoFault ->
  load_messages filename limit w
  = (mkWorld (files w) (tl (faults w)) (now w)
       (log w ++ [InfoLoaded (length (recent_of limit l)) filename
                    (length (Py.sort timestamp_key l))])
       (sent w),
     Ok (recent_of limit l)).
Proof.
  intros Hf Hnf. run. rewrite Hf, Hnf. run. rewrite Hf. reflexivity.
Qed.

Lemma load_messages_absent (filename : string) (limit : Z) (w : World) :
  files w filename = None ->
  snd (load_messages filename limit w) = Ok [] /\
  files (fst (load_messages filename limit w)) filename
  = match hd NoFault (faults w) with
    | NoFault => Some (Json (JArray []))
    | OpenFault => None
    | IOFault => Some Invalid
    end.
Proof.
  intros Hf. run. rewrite Hf.
  destruct (hd NoFault (faults w)); run; rewrite ?String.eqb_refl; auto.
Qed.

(** Whatever the file holds and whatever fails, [load_messages] returns a
    list: both handlers return [[]]. *)
Lemma load_messages_total (filename : string) (limit : Z) (w : World) :
  exists l, snd (load_messages filename limit w) = Ok l.
Proof.
  run. destruct (files w filename) as [[|[l|]]|] eqn:Hf;
    destruct (hd NoFault (faults w)); run; rewrite ?Hf; run; eauto.
Qed.

(** Every list [load_messages] returns is drawn from the array in the file. *)
Lemma load_messages_from_file (filename : string) (limit : Z) (w : World)
  (res : list message) :
  snd (load_messages filename limit w) = Ok res ->
  res = [] \/
  exists l, files w filename = Some (Json (JArray l)) /\ res = recent_of limit l.
Proof.
  run. destruct (files w filename) as [[|[l|]]|] eqn:Hf;
    destruct (hd NoFault (faults w)); run; rewrite ?Hf; run;
    intros [= <-]; eauto.
Qed.

(** [load_messages] changes the file only by creating it. *)
Lemma load_messages_file (filename : string) (limit : Z) (w : World) :
  files (fst (load_messages filename limit w)) filename = files w filename \/
  files w filename = None.
Proof.
  run. destruct (files w filename) as [[|[l|]]|] eqn:Hf;
    destruct (hd NoFault (faults w)); run; rewrite ?Hf; run;
    rewrite ?String.eqb_refl; auto.
Qed.

Lemma load_messages_frame (filename : string) (limit : Z) (w : World) :
  faults (fst (load_messages filename limit w)) = tl (faults w) /\
  now (fst (load_messages filename limit w)) = now w /\
  sent (fst (load_messages filename limit w)) = sent w.
Proof.
  run. destruct (files w filename) as [[|[l|]]|] eqn:Hf;
    destruct (hd NoFault (faults w)); run; rewrite ?Hf; run;
    rewrite ?String.eqb_refl; auto.
Qed.

Lemma recent_of_incl (limit : Z) (l : list message) (x : message) :
  In x (recent_of limit l) -> In x l.
Proof.
  unfold recent_of. intros Hin.
  apply (Permutation_in _ (sort_perm timestamp_key l)).
  destruct (Z.of_nat (length (Py.sort timestamp_key l)) >? limit)%Z;
    [|assumption].
  unfold Py.slice_from in Hin.
  match type of Hin with In _ (skipn ?n ?s) =>
    rewrite <- (firstn_skipn n s) end.
  apply in_or_app. now right.
Qed.

Lemma recent_of_positive (limit : Z) (l : list message) :
  (0 < limit)%Z ->
  recent_of limit l = last_n (Z.to_nat limit) (Py.sort timestamp_key l).
Proof. intros Hk. unfold recent_of. now apply recent_messages_eq. Qed.

Lemma recent_of_nil (limit : Z) : recent_of limit [] = [].
Proof.
  unfold recent_of. simpl. destruct (0 >? limit)%Z; [|reflexivity].
  unfold Py.slice_from. apply skipn_nil.
Qed.

(** ** Load *)

(** C2: when the file holds [N] records with distinct timestamp keys (a
    missing timestamp counting as the empty string) and the read goes
    through, [load_messages] with a limit [K >= 1] returns the last
    [min N K] records of the ascending arrangement of the records by
    timestamp key, in ascending order. *)
Theorem load_messages_last_min (filename : string) (K : Z) (w : World)
  (l : list message) :
  files w filename = Some (Json (JArray l)) ->
  hd NoFault (faults w) = NoFault ->
  NoDup (map timestamp_key l) ->
  (1 <= K)%Z ->
  exists res,
    snd (load_messages filename K w) = Ok res /\
    length res = Nat.min (length l) (Z.to_nat K) /\
    Sorted key_lt res /\
    forall s, Permutation s l -> Sorted key_le s ->
              res = last_n (Nat.min (length l) (Z.to_nat K)) s.
Proof.
  intros Hf Hnf Hnd HK.
  exists (recent_of K l).
  rewrite (load_messages_array _ _ _ _ Hf Hnf).
  rewrite recent_of_positive by lia.
  pose proof (sort_length timestamp_key l) as Hlen.
  repeat split.
  - rewrite last_n_length. lia.
  - apply Sorted_skipn. apply sorted_strict.
    + apply Permutation_NoDup with (map timestamp_key l); [|assumption].
      apply Permutation_map, Permutation_sym, sort_perm.
    + apply sort_sorted.
  - intros s Hp Hs.
    rewrite (sorted_perm_unique timestamp_key l s Hnd Hp Hs).
    unfold last_n. f_equal. lia.
Qed.

Lemma load_messages_last_min_witness :
  files (world_with three_messages) messages_json
  = Some (Json (JArray three_messages)) /\
  exists res,
    snd (load_messages messages_json 2 (world_with three_messages)) = Ok res /\
    length res = Nat.min (length three_messages) (Z.to_nat 2) /\
    Sorted key_lt res /\
    forall s, Permutation s three_messages -> Sorted key_le s ->
              res = last_n (Nat.min (length three_messages) (Z.to_nat 2)) s.
Proof.
  split; [reflexivity|].
  apply (load_messages_last_min messages_json 2 (world_with three_messages)
           three_messages).
  - reflexivity.
  - reflexivity.
  - simpl. repeat constructor; simpl; intuition discriminate.
  - lia.
Defined.

(** C10: with [limit = 0] and a file holding [N >= 1] records,
    [load_messages] takes the slice branch ([N > 0]), the slice
    [all_messages[-0:]] is the whole sorted list, and all [N] records come
    back. *)
Theorem load_messages_limit_zero (filename : string) (w : World)
  (l : list message) :
  files w filename = Some (Json (JArray l)) ->
  hd NoFault (faults w) = NoFault ->
  l <> [] ->
  let all_messages := Py.sort timestamp_key l in
  (Z.of_nat (length all_messages) >? 0)%Z = true /\
  Py.slice_from (- 0) all_messages = all_messages /\
  snd (load_messages filename 0 w) = Ok all_messages /\
  Permutation all_messages l /\
  length all_messages = length l.
Proof.
  intros Hf Hnf Hne all_messages.
  pose proof (sort_length timestamp_key l) as Hlen. fold all_messages in Hlen.
  assert (Hgt : (Z.of_nat (length all_messages) >? 0)%Z = true).
  { destruct l; [congruence|]. simpl in Hlen. rewrite Hlen. reflexivity. }
  repeat split.
  - exact Hgt.
  - apply slice_from_zero.
  - rewrite (load_messages_array _ _ _ _ Hf Hnf). simpl. f_equal.
    unfold recent_of. fold all_messages. rewrite Hgt. apply slice_from_zero.
  - apply sort_perm.
  - exact Hlen.
Qed.

Lemma load_messages_limit_zero_witness :
  snd (load_messages messages_json 0 (world_with three_messages))
  = Ok (Py.sort timestamp_key three_messages) /\
  length (Py.sort timestamp_key three_messages) = 3.
Proof.
  pose proof (load_messages_limit_zero messages_json
                (world_with three_messages) three_messages
                eq_refl eq_refl) as H.
  cbv zeta in H.
  destruct H as (_ & _ & Hload & _ & Hlen); [discriminate|].
  split; [exact Hload | exact Hlen].
Defined.

(** C5: on a missing file [load_messages] returns the empty list without
    raising and, when the creating write goes through, leaves a file holding
    the empty array; a second call on the resulting store returns the empty
    list again. *)
Theorem load_messages_missing_file (filename : string) (limit limit' : Z)
  (w : World) :
  files w filename = None ->
  snd (load_messages filename limit w) = Ok [] /\
  (hd NoFault (faults w) = NoFault ->
   files (fst (load_messages filename limit w)) filename
   = Some (Json (JArray []))) /\
  snd (load_messages filename limit' (fst (load_messages filename limit w)))
  = Ok [].
Proof.
  intros Hf.
  destruct (load_messages_absent filename limit w Hf) as [Hres Hfile].
  split; [assumption|]. split.
  - intros Hnf. now rewrite Hfile, Hnf.
  - destruct (load_messages_total filename limit'
                (fst (load_messages filename limit w))) as [res Hres'].
    rewrite Hres'. f_equal.
    destruct (load_messages_from_file _ _ _ _ Hres') as [->|(l & Hl & ->)];
      [reflexivity|].
    rewrite Hfile in Hl.
    destruct (hd NoFault (faults w)); try discriminate.
    injection Hl as <-. apply recent_of_nil.
Qed.

Lemma load_messages_missing_file_witness :
  files fresh_world messages_json = None /\
  snd (load_messages messages_json 10 fresh_world) = Ok [] /\
  files (fst (load_messages messages_json 10 fresh_world)) messages_json
  = Some (Json (JArray [])) /\
  snd (load_messages messages_json 10
         (fst (load_messages messages_json 10 fresh_world))) = Ok [].
Proof.
  destruct (load_messages_missing_file messages_json 10 10 fresh_world
              eq_refl) as (H1 & H2 & H3).
  split; [reflexivity|]. split; [exact H1|].
  split; [exact (H2 eq_refl) | exact H3].
Defined.

(** C6: [load_messages] never raises; when the file's text is not valid
    JSON, or when the [open] or the transfer fails, it returns the empty
    list. *)
Theorem load_messages_swallows_errors (filename : string) (limit : Z)
  (w : World) :
  (exists res, snd (load_messages filename limit w) = Ok res) /\
  (files w filename = Some Invalid \/ hd NoFault (faults w) <> NoFault ->
   snd (load_messages filename limit w) = Ok []).
Proof.
  split; [apply load_messages_total|].
  run. destruct (files w filename) as [[|[l|]]|] eqn:Hf;
    destruct (hd NoFault (faults w)); run; rewrite ?Hf; run;
    intros [H|H]; congruence.
Qed.

Lemma load_messages_swallows_errors_witness :
  snd (load_messages messages_json 10 corrupt_world) = Ok [] /\
  snd (load_messages messages_json 10 (unreadable_world three_messages)) = Ok [].
Proof.
  split.
  - apply (load_messages_swallows_errors messages_json 10 corrupt_world).
    left. reflexivity.
  - apply (load_messages_swallows_errors messages_json 10
             (unreadable_world three_messages)).
    right. discriminate.
Defined.

(** ** Append *)

(** [save_message] after its [load_messages] call has returned [res] in
    world [w1]: the outcome is decided by the fault scheduled for the write. *)
Lemma save_message_run (m : message) (filename : string) (w w1 : World)
  (res : list message) :
  load_messages filename default_limit w = (w1, Ok res) ->
  save_message m filename w
  = let written := res ++ [backfill_timestamp (now w1) m] in
    match hd NoFault (faults w1) with
    | NoFault =>
        (mkWorld (fun f => if String.eqb f filename
                           then Some (Json (JArray written)) else files w1 f)
           (tl (faults w1)) (now w1)
           (log w1 ++ [InfoSaved filename (length written)]) (sent w1),
         Ok true)
    | OpenFault =>
        (mkWorld (files w1) (tl (faults w1)) (now w1)
           (log w1 ++ [ErrorSaving filename OSError]) (sent w1),
         Ok false)
    | IOFault =>
        (mkWorld (fun f => if String.eqb f filename
                           then Some Invalid else files w1 f)
           (tl (faults w1)) (now w1)
           (log w1 ++ [ErrorSaving filename OSError]) (sent w1),
         Ok false)
    end.
Proof.
  intros Hload. run_outer. rewrite Hload.
  destruct (hd NoFault (faults w1)); reflexivity.
Qed.

Lemma load_messages_pair (filename : string) (limit : Z) (w : World) :
  exists w1 res, load_messages filename limit w = (w1, Ok res).
Proof.
  destruct (load_messages_total filename limit w) as [res Hres].
  destruct (load_messages filename limit w) as [w1 r] eqn:Hl.
  simpl in Hres. subst r. eauto.
Qed.

Lemma backfill_has_timestamp (t : string) (m : message) :
  has_timestamp (backfill_timestamp t m).
Proof.
  unfold has_timestamp, backfill_timestamp.
  destruct (timestamp m) eqn:Hm; simpl; congruence.
Qed.

(** What [load_messages] returns from a stamped store is stamped. *)
Lemma load_messages_stamped (filename : string) (limit : Z) (w : World)
  (res : list message) :
  stamped_store filename w ->
  snd (load_messages filename limit w) = Ok res ->
  Forall has_timestamp res.
Proof.
  intros Hst Hres.
  destruct (load_messages_from_file _ _ _ _ Hres) as [->|(l & Hl & ->)];
    [constructor|].
  apply Forall_forall. intros x Hx.
  apply recent_of_incl in Hx.
  exact (proj1 (Forall_forall _ _) (Hst l Hl) x Hx).
Qed.

Lemma load_messages_keeps_stamped (filename : string) (limit : Z) (w : World) :
  stamped_store filename w ->
  stamped_store filename (fst (load_messages filename limit w)).
Proof.
  intros Hst l Hl.
  destruct (load_messages_file filename limit w) as [Heq|Hnone].
  - apply Hst. now rewrite <- Heq.
  - destruct (load_messages_absent filename limit w Hnone) as [_ Hfile].
    rewrite Hfile in Hl.
    destruct (hd NoFault (faults w)); try discriminate.
    injection Hl as <-. constructor.
Qed.

(** [save_message] keeps the store stamped, whatever fails. *)
Lemma save_message_keeps_stamped (m : message) (filename : string) (w : World) :
  stamped_store filename w ->
  stamped_store filename (fst (save_message m filename w)).
Proof.
  intros Hst.
  destruct (load_messages_pair filename default_limit w) as (w1 & res & Hload).
  pose proof (load_messages_keeps_stamped filename default_limit w Hst) as Hst1.
  pose proof (load_messages_stamped filename default_limit w res Hst) as Hres.
  rewrite Hload in Hst1, Hres. simpl in Hst1, Hres.
  rewrite (save_message_run m filename w w1 res Hload). cbv zeta.
  intros l.
  destruct (hd NoFault (faults w1)); cbn [fst files];
    rewrite ?String.eqb_refl.
  - intros [= <-]. apply Forall_app. split; [now apply Hres|].
    constructor; [apply backfill_has_timestamp | constructor].
  - apply Hst1.
  - discriminate.
Qed.

Lemma appended_stamped (filename : string) (w0 w : World) :
  stamped_store filename w0 ->
  appended_from filename w0 w ->
  stamped_store filename w.
Proof.
  intros Hst Happ. induction Happ as [|w fs t Happ IH|w m Happ IH].
  - assumption.
  - exact IH.
  - now apply save_message_keeps_stamped.
Qed.

Lemma load_messages_log (filename : string) (limit : Z) (w : World) :
  exists pre, log (fst (load_messages filename limit w)) = log w ++ pre.
Proof.
  run. destruct (files w filename) as [[|[l|]]|] eqn:Hf;
    destruct (hd NoFault (faults w)); run; rewrite ?Hf; run;
    rewrite <- ?app_assoc; eauto.
Qed.

(** The file [save_message] leaves when the store holds the array [l] and
    nothing fails: the ten most recent records and the new one. *)
Lemma save_message_file (m : message) (filename : string) (w : World)
  (l : list message) :
  files w filename = Some (Json (JArray l)) ->
  hd NoFault (faults w) = NoFault ->
  write_fault w = NoFault ->
  snd (save_message m filename w) = Ok true /\
  files (fst (save_message m filename w)) filename
  = Some (Json (JArray (last_n 10 (Py.sort timestamp_key l)
                          ++ [backfill_timestamp (now w) m]))).
Proof.
  intros Hf Hnf Hwf.
  rewrite (save_message_run m filename w _ _
             (load_messages_array filename default_limit w l Hf Hnf)).
  cbn [faults now]. unfold write_fault in Hwf. rewrite Hwf.
  cbn [fst snd files]. rewrite String.eqb_refl.
  split; [reflexivity|].
  now rewrite (recent_of_positive default_limit l) by reflexivity.
Qed.

(** Up to ten stored records all survive an append. *)
Lemma save_message_small_store (m : message) (filename : string) (w : World)
  (l : list message) :
  files w filename = Some (Json (JArray l)) ->
  hd NoFault (faults w) = NoFault ->
  write_fault w = NoFault ->
  length l <= 10 ->
  exists l',
    files (fst (save_message m filename w)) filename = Some (Json (JArray l')) /\
    Permutation l' (l ++ [backfill_timestamp (now w) m]).
Proof.
  intros Hf Hnf Hwf Hlen.
  destruct (save_message_file m filename w l Hf Hnf Hwf) as [_ Hfile].
  eexists. split; [exact Hfile|].
  rewrite last_n_all by (rewrite sort_length; exact Hlen).
  apply Permutation_app_tail, sort_perm.
Qed.

(** On a store of more than ten records the rewritten file has eleven. *)
Lemma save_message_truncates (m : message) (filename : string) (w : World)
  (l : list message) :
  files w filename = Some (Json (JArray l)) ->
  hd NoFault (faults w) = NoFault ->
  write_fault w = NoFault ->
  10 < length l ->
  exists l',
    files (fst (save_message m filename w)) filename = Some (Json (JArray l')) /\
    length l' = 11.
Proof.
  intros Hf Hnf Hwf Hlen.
  destruct (save_message_file m filename w l Hf Hnf Hwf) as [_ Hfile].
  eexists. split; [exact Hfile|].
  rewrite length_app, last_n_length, sort_length. simpl. lia.
Qed.

(** C1: a store of eleven records, one more appended: [save_message]
    reports success and the file holds eleven records, not twelve; the
    oldest stored record is gone. *)
Theorem save_message_drops_oldest :
  snd (save_message (sample_message "A" "t12") messages_json
         (world_with eleven_messages)) = Ok true /\
  files (fst (save_message (sample_message "A" "t12") messages_json
                (world_with eleven_messages))) messages_json
  = Some (Json (JArray (tl eleven_messages ++ [sample_message "A" "t12"]))) /\
  length eleven_messages = 11 /\
  length (tl eleven_messages ++ [sample_message "A" "t12"]) = 11 /\
  In (sample_message "A" "t01") eleven_messages /\
  ~ In (sample_message "A" "t01")
      (tl eleven_messages ++ [sample_message "A" "t12"]).
Proof.
  split; [reflexivity|]. split; [reflexivity|].
  split; [reflexivity|]. split; [reflexivity|].
  split; [now left|].
  simpl. intros H. repeat (destruct H as [H|H]; [discriminate H|]). exact H.
Qed.

(** C7: in a store built by [save_message] calls every record [load_messages]
    reads back has a timestamp: [save_message] writes the record with the
    clock's reading when the record has no timestamp, and unchanged when it
    has one. *)
Theorem save_message_backfills_timestamp (filename : string) (w0 w : World)
  (m : message) (limit : Z) :
  stamped_store filename w0 ->
  appended_from filename w0 w ->
  (write_fault w = NoFault ->
   exists res,
     files (fst (save_message m filename w)) filename
     = Some (Json (JArray (res ++ [backfill_timestamp (now w) m])))) /\
  (timestamp m = None ->
   backfill_timestamp (now w) m
   = mkMessage (call_id m) (request m) (response m) (Some (now w))) /\
  (timestamp m <> None -> backfill_timestamp (now w) m = m) /\
  exists back,
    snd (load_messages filename limit w) = Ok back /\
    Forall has_timestamp back.
Proof.
  intros Hst Happ. repeat split.
  - intros Hwf.
    destruct (load_messages_pair filename default_limit w) as (w1 & res & Hload).
    destruct (load_messages_frame filename default_limit w) as (Hfa & Hnow & _).
    rewrite Hload in Hfa, Hnow. simpl in Hfa, Hnow.
    rewrite (save_message_run m filename w w1 res Hload). cbv zeta.
    unfold write_fault in Hwf. rewrite Hfa, Hwf, Hnow.
    cbn [fst files]. rewrite String.eqb_refl. now exists res.
  - intros Hm. unfold backfill_timestamp. now rewrite Hm.
  - intros Hm. unfold backfill_timestamp.
    destruct (timestamp m); [reflexivity | congruence].
  - destruct (load_messages_total filename limit w) as [back Hback].
    exists back. split; [assumption|].
    apply (load_messages_stamped filename limit w back); [|assumption].
    now apply (appended_stamped filename w0 w).
Qed.

Lemma save_message_backfills_timestamp_witness :
  (exists res,
     files (fst (save_message unstamped_message messages_json fresh_world))
       messages_json
     = Some (Json (JArray (res ++ [backfill_timestamp (now fresh_world)
                                     unstamped_message])))) /\
  backfill_timestamp (now fresh_world) unstamped_message
  = mkMessage (Some "A") "hi" "hello" (Some "2024-05-01T10:00:00") /\
  exists back,
    snd (load_messages messages_json 1
           (fst (save_message unstamped_message messages_json fresh_world)))
    = Ok back /\
    Forall has_timestamp back.
Proof.
  assert (Hst : stamped_store messages_json fresh_world)
    by (intros l Hl; discriminate Hl).
  destruct (save_message_backfills_timestamp messages_json fresh_world
              fresh_world unstamped_message 1 Hst
              (appended_nil messages_json fresh_world))
    as (Hfile & Hnone & _ & _).
  destruct (save_message_backfills_timestamp messages_json fresh_world
              (fst (save_message unstamped_message messages_json fresh_world))
              unstamped_message 1 Hst
              (appended_save messages_json fresh_world fresh_world
                 unstamped_message (appended_nil messages_json fresh_world)))
    as (_ & _ & _ & Hback).
  split; [exact (Hfile eq_refl)|]. split; [exact (Hnone eq_refl) | exact Hback].
Defined.

(** C8 as the code has it: [save_message] never raises and returns [True]
    exactly when its own write goes through; when the [open] for writing or
    the write fails it logs the error and returns [False].  An error while
    reading is handled inside [load_messages] and does not change the
    result. *)
Theorem save_message_returns_bool (m : message) (filename : string)
  (w : World) :
  snd (save_message m filename w)
  = Ok (match write_fault w with NoFault => true | _ => false end) /\
  exists pre n,
    log (fst (save_message m filename w))
    = log w ++ pre ++
      [match write_fault w with
       | NoFault => InfoSaved filename n
       | _ => ErrorSaving filename OSError
       end].
Proof.
  destruct (load_messages_pair filename default_limit w) as (w1 & res & Hload).
  destruct (load_messages_frame filename default_limit w) as (Hfa & _ & _).
  destruct (load_messages_log filename default_limit w) as [pre Hlog].
  rewrite Hload in Hfa, Hlog. simpl in Hfa, Hlog.
  rewrite (save_message_run m filename w w1 res Hload). cbv zeta.
  unfold write_fault. rewrite Hfa.
  destruct (hd NoFault (tl (faults w))); cbn [fst snd log];
    (split; [reflexivity|]); rewrite Hlog;
    exists pre, (length (res ++ [backfill_timestamp (now w1) m]));
    rewrite <- app_assoc; reflexivity.
Qed.

(** C8, the clause that any error yields [False]: on a store whose text is
    not JSON the read raises, [load_messages] logs it and returns [[]], and
    [save_message] writes the record and returns [True]. *)
Lemma save_message_true_after_read_error :
  snd (open_r_json_load messages_json corrupt_world) = Raise JSONDecodeError /\
  log (fst (save_message unstamped_message messages_json corrupt_world))
  = [ErrorDecoding messages_json; InfoSaved messages_json 1] /\
  snd (save_message unstamped_message messages_json corrupt_world) = Ok true /\
  snd (save_message unstamped_message messages_json corrupt_world) <> Ok false.
Proof.
  split; [reflexivity|]. split; [reflexivity|]. split; [reflexivity|].
  discriminate.
Qed.

(** ** Ascending arrangements have the same keys *)

Lemma str_le_trans (a b c : string) : str_le a b -> str_le b c -> str_le a c.
Proof. unfold str_le. intros Hab Hbc. now apply ltb_le_trans with b. Qed.

Lemma sorted_strings_unique (a b : list string) :
  Sorted str_le a -> Sorted str_le b -> Permutation a b -> a = b.
Proof.
  intros Ha Hb.
  apply Sorted_StronglySorted in Ha; [|exact str_le_trans].
  apply Sorted_StronglySorted in Hb; [|exact str_le_trans].
  revert b Hb. induction Ha as [|x a Ha IH Hx]; intros b Hb Hp.
  - now apply Permutation_nil in Hp.
  - destruct Hb as [|y b Hb Hy].
    + apply Permutation_sym, Permutation_nil in Hp. discriminate.
    + assert (Hxy : x = y).
      { assert (Hin1 : In x (y :: b))
          by (apply (Permutation_in _ Hp); now left).
        assert (Hin2 : In y (x :: a))
          by (apply (Permutation_in _ (Permutation_sym Hp)); now left).
        destruct Hin1 as [->|Hin1]; [reflexivity|].
        destruct Hin2 as [->|Hin2]; [reflexivity|].
        apply ltb_connected.
        - exact (proj1 (Forall_forall _ _) Hy x Hin1).
        - exact (proj1 (Forall_forall _ _) Hx y Hin2). }
      subst y. f_equal. apply IH; [assumption|].
      now apply Permutation_cons_inv in Hp.
Qed.

Lemma Sorted_key_map (l : list message) :
  Sorted key_le l -> Sorted str_le (map timestamp_key l).
Proof.
  induction 1 as [|x l Hs IH Hhd]; simpl; constructor; [assumption|].
  destruct Hhd; simpl; constructor. assumption.
Qed.

Lemma sorted_keys_unique (s s' : list message) :
  Sorted key_le s -> Sorted key_le s' -> Permutation s s' ->
  map timestamp_key s = map timestamp_key s'.
Proof.
  intros Hs Hs' Hp.
  apply sorted_strings_unique;
    [now apply Sorted_key_map | now apply Sorted_key_map
    | now apply Permutation_map].
Qed.

Lemma last_n_map {A B} (f : A -> B) (k : nat) (l : list A) :
  map f (last_n k l) = last_n k (map f l).
Proof. unfold last_n. now rewrite skipn_map, length_map. Qed.

Lemma filter_none {A} (f : A -> bool) (l : list A) :
  (forall x, In x l -> f x = false) -> filter f l = [].
Proof.
  induction l as [|x l IH]; intros Hf; [reflexivity|].
  simpl. rewrite (Hf x (or_introl eq_refl)). apply IH.
  intros y Hy. apply Hf. now right.
Qed.

(** When the [k] newest records are strictly newer than all the others,
    the last [k] of the sorted list are among them. *)
Lemma last_n_sort_recent (l old recent : list message) (x : message) :
  Permutation l (old ++ recent) ->
  (forall o r, In o old -> In r recent -> key_lt o r) ->
  In x (last_n (length recent) (Py.sort timestamp_key l)) ->
  In x recent.
Proof.
  intros Hp Hlt Hx.
  assert (Hkeys : map timestamp_key (Py.sort timestamp_key l)
                  = map timestamp_key (Py.sort timestamp_key old
                                        ++ Py.sort timestamp_key recent)).
  { apply sorted_keys_unique.
    - apply sort_sorted.
    - rewrite <- sort_app by exact Hlt. apply sort_sorted.
    - apply perm_trans with l; [apply sort_perm|].
      apply perm_trans with (old ++ recent); [assumption|].
      apply Permutation_sym, Permutation_app; apply sort_perm. }
  assert (Hkx : In (timestamp_key x) (map timestamp_key recent)).
  { apply (Permutation_in _ (Permutation_map _ (sort_perm timestamp_key recent))).
    rewrite <- (last_n_app (Py.sort timestamp_key old)
                  (Py.sort timestamp_key recent)).
    rewrite sort_length, last_n_map, <- Hkeys, <- last_n_map.
    now apply in_map. }
  apply in_map_iff in Hkx. destruct Hkx as (r & Hkr & Hr).
  assert (Hxl : In x (old ++ recent)).
  { apply (Permutation_in _ Hp).
    apply (Permutation_in _ (sort_perm timestamp_key l)).
    now apply last_n_incl in Hx. }
  apply in_app_or in Hxl. destruct Hxl as [Ho|Hrec]; [|assumption].
  exfalso. specialize (Hlt x r Ho Hr). unfold key_lt, Py.lt_by in Hlt.
  rewrite Hkr, ltb_irrefl in Hlt. discriminate.
Qed.

(** ** History of a call *)

Lemma get_call_history_run (cid filename : string) (w w1 : World)
  (res : list message) :
  load_messages filename default_limit w = (w1, Ok res) ->
  get_call_history cid filename w
  = let call_messages :=
      filter (fun msg => Py.opt_eqb (call_id msg) (Some cid)) res in
    (mkWorld (files w1) (faults w1) (now w1)
       (log w1 ++ [InfoFound (length call_messages) cid]) (sent w1),
     Ok call_messages).
Proof. intros Hload. run_outer. now rewrite Hload. Qed.

Lemma opt_eqb_eq (a b : option string) : Py.opt_eqb a b = true <-> a = b.
Proof.
  destruct a as [x|], b as [y|]; simpl; try (split; congruence).
  rewrite String.eqb_eq. split; congruence.
Qed.

(** C3: [get_call_history] is [load_messages] with the default limit 10
    followed by the filter on [call_id], and it never raises.  So when the
    ten most recent records (strictly newer than all the others) are none of
    call [cid], the result is empty, however many older records of [cid]
    the file holds. *)
Theorem get_call_history_limit_then_filter (cid filename : string)
  (w : World) :
  default_limit = 10%Z /\
  (exists messages,
     snd (load_messages filename default_limit w) = Ok messages /\
     snd (get_call_history cid filename w)
     = Ok (filter (fun msg => Py.opt_eqb (call_id msg) (Some cid)) messages)) /\
  (forall l old recent,
     files w filename = Some (Json (JArray l)) ->
     hd NoFault (faults w) = NoFault ->
     Permutation l (old ++ recent) ->
     length recent = 10 ->
     (forall o r, In o old -> In r recent -> key_lt o r) ->
     (forall r, In r recent -> call_id r <> Some cid) ->
     snd (get_call_history cid filename w) = Ok []).
Proof.
  split; [reflexivity|]. split.
  - destruct (load_messages_pair filename default_limit w) as (w1 & res & Hload).
    exists res. rewrite (get_call_history_run cid filename w w1 res Hload).
    rewrite Hload. split; reflexivity.
  - intros l old recent Hf Hnf Hp Hlen Hlt Hcid.
    rewrite (get_call_history_run cid filename w _ _
               (load_messages_array filename default_limit w l Hf Hnf)).
    cbv zeta. cbn [snd]. f_equal.
    apply filter_none. intros x Hx.
    rewrite (recent_of_positive default_limit l) in Hx by reflexivity.
    change (Z.to_nat default_limit) with 10 in Hx. rewrite <- Hlen in Hx.
    apply (last_n_sort_recent l old recent x Hp Hlt) in Hx.
    destruct (Py.opt_eqb (call_id x) (Some cid)) eqn:Heq; [|reflexivity].
    apply opt_eqb_eq in Heq. now apply Hcid in Hx.
Qed.

Lemma get_call_history_limit_then_filter_witness :
  length fifteen_messages = 15 /\
  length (filter (fun msg => Py.opt_eqb (call_id msg) (Some "A"))
            fifteen_messages) = 3 /\
  snd (get_call_history "A" messages_json (world_with fifteen_messages))
  = Ok [].
Proof.
  split; [reflexivity|]. split; [reflexivity|].
  destruct (get_call_history_limit_then_filter "A" messages_json
              (world_with fifteen_messages)) as (_ & _ & H).
  apply (H fifteen_messages (old_turns_A ++ later_turns_B) recent_turns_B).
  - reflexivity.
  - reflexivity.
  - apply Permutation_app_comm.
  - reflexivity.
  - intros o r Ho Hr. simpl in Ho, Hr. in_cases; reflexivity.
  - intros r Hr. simpl in Hr. in_cases; discriminate.
Defined.

(** ** The prompt *)

Lemma extend_with_history_eq (call_messages : list message)
  (acc : list langchain_message) :
  extend_with_history call_messages acc
  = acc ++ flat_map turn_entries call_messages.
Proof.
  unfold extend_with_history. revert acc.
  induction call_messages as [|m h IH]; intros acc; simpl.
  - now rewrite app_nil_r.
  - rewrite IH, <- app_assoc. reflexivity.
Qed.

Lemma build_langchain_messages_eq (call_messages : list message)
  (body : string) :
  build_langchain_messages call_messages body
  = SystemMessage persona
      :: flat_map turn_entries call_messages ++ [HumanMessage body].
Proof.
  unfold build_langchain_messages, Py.insert.
  now rewrite extend_with_history_eq.
Qed.

Lemma turn_entries_length (h : list message) :
  length (flat_map turn_entries h) = 2 * length h.
Proof. induction h as [|m h IH]; simpl; lia. Qed.

Lemma turn_entries_nth (h : list message) (tl : list langchain_message)
  (i : nat) (m : message) :
  nth_error h i = Some m ->
  nth_error (flat_map turn_entries h ++ tl) (2 * i)
  = Some (HumanMessage (request m)) /\
  nth_error (flat_map turn_entries h ++ tl) (2 * i + 1)
  = Some (AIMessage (response m)).
Proof.
  revert i. induction h as [|x h IH]; intros i Hi.
  - destruct i; discriminate.
  - destruct i as [|i].
    + injection Hi as <-. split; reflexivity.
    + replace (2 * S i) with (S (S (2 * i))) by lia.
      replace (S (S (2 * i)) + 1) with (S (S (2 * i + 1))) by lia.
      simpl in Hi |- *. now apply IH.
Qed.

Lemma save_message_sent (m : message) (filename : string) (w : World) :
  sent (fst (save_message m filename w)) = sent w.
Proof.
  destruct (load_messages_pair filename default_limit w) as (w1 & res & Hload).
  destruct (load_messages_frame filename default_limit w) as (_ & _ & Hs).
  rewrite Hload in Hs. simpl in Hs.
  rewrite (save_message_run m filename w w1 res Hload). cbv zeta.
  destruct (hd NoFault (faults w1)); exact Hs.
Qed.

Lemma get_call_history_sent (cid filename : string) (w : World) :
  sent (fst (get_call_history cid filename w)) = sent w.
Proof.
  destruct (load_messages_pair filename default_limit w) as (w1 & res & Hload).
  destruct (load_messages_frame filename default_limit w) as (_ & _ & Hs).
  rewrite Hload in Hs. simpl in Hs.
  rewrite (get_call_history_run cid filename w w1 res Hload). exact Hs.
Qed.

Lemma get_call_history_total (cid filename : string) (w : World) :
  exists w1 hist, get_call_history cid filename w = (w1, Ok hist).
Proof.
  destruct (load_messages_pair filename default_limit w) as (w1 & res & Hload).
  rewrite (get_call_history_run cid filename w w1 res Hload). cbv zeta. eauto.
Qed.

(** The prompt of a request is the last thing the handler hands to the
    service. *)
Lemma callflow_sent (llm : list langchain_message -> result string)
  (req : Request) (w w1 : World) (msgs : list langchain_message) :
  callflow_prompt req w = (w1, Ok msgs) ->
  sent (fst (callflow llm req w)) = sent w1 ++ [msgs].
Proof.
  intros Hp. unfold callflow, bind. rewrite Hp.
  unfold llm_invoke, datetime_now, ret.
  destruct (llm msgs) as [response|e]; [|reflexivity].
  match goal with
  | |- context [save_message ?m ?f ?w'] =>
      pose proof (save_message_sent m f w') as Hs;
      destruct (save_message m f w') as [w2 [b|e]]
  end; exact Hs.
Qed.

(** C4: for a request with a non-empty call identifier whose history has [k]
    turns, the service receives [2k+2] entries: the system persona, then for
    each turn in store order the human entry with its request and the
    assistant entry with its response, then the human entry with the body. *)
Theorem callflow_prompt_with_history
  (llm : list langchain_message -> result string) (req : Request) (w : World)
  (c : string) (hist : list message) :
  header_call_id req = Some c ->
  c <> "" ->
  snd (get_call_history c messages_json w) = Ok hist ->
  exists msgs,
    sent (fst (callflow llm req w)) = sent w ++ [msgs] /\
    msgs = SystemMessage persona
             :: flat_map turn_entries hist ++ [HumanMessage (body_text req)] /\
    length msgs = 2 * length hist + 2 /\
    nth_error msgs 0 = Some (SystemMessage persona) /\
    (forall i m, nth_error hist i = Some m ->
       nth_error msgs (2 * i + 1) = Some (HumanMessage (request m)) /\
       nth_error msgs (2 * i + 2) = Some (AIMessage (response m))) /\
    nth_error msgs (2 * length hist + 1) = Some (HumanMessage (body_text req)).
Proof.
  intros Hc Hne Hhist.
  exists (build_langchain_messages hist (body_text req)).
  destruct (get_call_history_total c messages_json w) as (w1 & hist' & Hg).
  pose proof (get_call_history_sent c messages_json w) as Hs.
  rewrite Hg in Hhist, Hs. simpl in Hhist, Hs. injection Hhist as ->.
  split.
  - rewrite <- Hs.
    apply callflow_sent with
      (w1 := mkWorld (files w1) (faults w1) (now w1)
               (log w1 ++ [InfoCallflow (Some c) (body_text req)]) (sent w1)).
    unfold callflow_prompt, bind. rewrite Hc. simpl.
    apply String.eqb_neq in Hne. rewrite Hne. simpl. rewrite Hg.
    reflexivity.
  - rewrite build_langchain_messages_eq.
    split; [reflexivity|]. split.
    { simpl. rewrite length_app, turn_entries_length. simpl. lia. }
    split; [reflexivity|]. split.
    + intros i m Hi.
      replace (2 * i + 1) with (S (2 * i)) by lia.
      replace (2 * i + 2) with (S (2 * i + 1)) by lia.
      cbn [nth_error]. now apply turn_entries_nth.
    + replace (2 * length hist + 1) with (S (2 * length hist)) by lia.
      cbn [nth_error]. rewrite nth_error_app2; rewrite turn_entries_length;
        [|lia].
      now replace (2 * length hist - 2 * length hist) with 0 by lia.
Qed.

Lemma callflow_prompt_with_history_witness :
  exists msgs,
    sent (fst (callflow sample_llm (mkRequest "hello" (Some "A"))
                 (world_with three_messages))) = [msgs] /\
    msgs = [SystemMessage persona;
            HumanMessage "q-2024-01"; AIMessage "a-2024-01";
            HumanMessage "q-2024-02"; AIMessage "a-2024-02";
            HumanMessage "hello"].
Proof.
  destruct (callflow_prompt_with_history sample_llm
              (mkRequest "hello" (Some "A")) (world_with three_messages) "A"
              [sample_message "A" "2024-01"; sample_message "A" "2024-02"]
              eq_refl)
    as (msgs & Hsent & Hmsgs & _).
  - discriminate.
  - reflexivity.
  - exists msgs. split; [exact Hsent | exact Hmsgs].
Defined.

(** C9: for a request whose call identifier is absent or empty the handler
    reads no history (the store, the pending faults and the log are as
    before, up to the handler's own log line) and the service receives the
    persona entry followed by the human entry with the body. *)
Theorem callflow_without_call_id
  (llm : list langchain_message -> result string) (req : Request) (w : World) :
  header_call_id req = None \/ header_call_id req = Some "" ->
  callflow_prompt req w
  = (mkWorld (files w) (faults w) (now w)
       (log w ++ [InfoCallflow (header_call_id req) (body_text req)]) (sent w),
     Ok [SystemMessage persona; HumanMessage (body_text req)]) /\
  sent (fst (callflow llm req w))
  = sent w ++ [[SystemMessage persona; HumanMessage (body_text req)]].
Proof.
  intros Hc.
  assert (Hp : callflow_prompt req w
               = (mkWorld (files w) (faults w) (now w)
                    (log w ++ [InfoCallflow (header_call_id req) (body_text req)])
                    (sent w),
                  Ok [SystemMessage persona; HumanMessage (body_text req)])).
  { unfold callflow_prompt. destruct Hc as [-> | ->]; reflexivity. }
  split; [exact Hp|].
  now rewrite (callflow_sent llm req w _ _ Hp).
Qed.

Lemma callflow_without_call_id_witness :
  sent (fst (callflow sample_llm (mkRequest "hello" None)
               (world_with three_messages)))
  = [[SystemMessage persona; HumanMessage "hello"]] /\
  sent (fst (callflow sample_llm (mkRequest "hello" (Some ""))
               (world_with three_messages)))
  = [[SystemMessage persona; HumanMessage "hello"]].
Proof.
  split.
  - apply (callflow_without_call_id sample_llm (mkRequest "hello" None)
             (world_with three_messages)).
    left. reflexivity.
  - apply (callflow_without_call_id sample_llm (mkRequest "hello" (Some ""))
             (world_with three_messages)).
    right. reflexivity.
Defined.

(** * Further properties of the store *)

(** ** Load: what it leaves alone, and its edges *)



(** A file holding valid JSON that is not an array makes [sort] fail with
    an [AttributeError]: the generic handler logs it and [load_messages]
    returns the empty list, the file staying as it is. *)
Theorem load_messages_non_array (filename : string) (limit : Z) (w : World) :
  files w filename = Some (Json JOther) ->
  hd NoFault (faults w) = NoFault ->
  load_messages filename limit w
  = (mkWorld (files w) (tl (faults w)) (now w)
       (log w ++ [ErrorLoading filename AttributeError]) (sent w),
     Ok []).
Proof.
  intros Hf Hnf. run. rewrite Hf, Hnf. run. rewrite Hf. reflexivity.
Qed.

Lemma load_messages_non_array_witness :
  snd (load_messages messages_json 10 nonarray_world) = Ok [] /\
  log (fst (load_messages messages_json 10 nonarray_world))
  = [ErrorLoading messages_json AttributeError].
Proof.
  rewrite (load_messages_non_array messages_json 10 nonarray_world
             eq_refl eq_refl).
  split; reflexivity.
Defined.



(** With a limit of at least the number of records nothing is cut: the
    result is a rearrangement of the file's records in ascending timestamp
    order, and the records of one timestamp come back in their file order. *)
Theorem load_messages_whole_store (filename : string) (limit : Z) (w : World)
  (l : list message) :
  files w filename = Some (Json (JArray l)) ->
  hd NoFault (faults w) = NoFault ->
  (Z.of_nat (length l) <= limit)%Z ->
  exists res,
    snd (load_messages filename limit w) = Ok res /\
    Permutation res l /\
    Sorted key_le res /\
    forall ts, filter (fun m => String.eqb (timestamp_key m) ts) res
               = filter (fun m => String.eqb (timestamp_key m) ts) l.
Proof.
  intros Hf Hnf Hlim. exists (Py.sort timestamp_key l).
  rewrite (load_messages_array _ _ _ _ Hf Hnf). cbn [snd].
  split.
  - f_equal. unfold recent_of.
    destruct (Z.gtb_spec (Z.of_nat (length (Py.sort timestamp_key l))) limit)
      as [Hgt|_]; [|reflexivity].
    rewrite sort_length in Hgt. lia.
  - split; [apply sort_perm|]. split; [apply sort_sorted|].
    intros ts. apply sort_stable.
Qed.

Lemma load_messages_whole_store_witness :
  exists res,
    snd (load_messages messages_json 10 (world_with tied_messages)) = Ok res /\
    Permutation res tied_messages /\
    Sorted key_le res /\
    forall ts, filter (fun m => String.eqb (timestamp_key m) ts) res
               = filter (fun m => String.eqb (timestamp_key m) ts)
                   tied_messages.
Proof.
  apply (load_messages_whole_store messages_json 10 (world_with tied_messages)
           tied_messages eq_refl eq_refl).
  simpl. lia.
Defined.

(** ** Append: bounds, losses and reading back *)

Lemma recent_of_length (limit : Z) (l : list message) :
  (0 < limit)%Z -> length (recent_of limit l) <= Z.to_nat limit.
Proof.
  intros Hk. rewrite recent_of_positive by assumption.
  rewrite last_n_length. lia.
Qed.

Lemma load_messages_default_length (filename : string) (w : World)
  (res : list message) :
  snd (load_messages filename default_limit w) = Ok res -> length res <= 10.
Proof.
  intros Hres.
  destruct (load_messages_from_file _ _ _ _ Hres) as [->|(l & _ & ->)];
    [simpl; lia|].
  now apply (recent_of_length default_limit l).
Qed.

Lemma save_message_frame (m : message) (filename : string) (w : World) :
  faults (fst (save_message m filename w)) = tl (tl (faults w)) /\
  now (fst (save_message m filename w)) = now w.
Proof.
  destruct (load_messages_pair filename default_limit w) as (w1 & res & Hload).
  destruct (load_messages_frame filename default_limit w) as (Hfa & Hnow & _).
  rewrite Hload in Hfa, Hnow. simpl in Hfa, Hnow.
  rewrite (save_message_run m filename w w1 res Hload). cbv zeta.
  destruct (hd NoFault (faults w1)); cbn [fst faults now];
    now rewrite Hfa, Hnow.
Qed.

(** Whatever the store held, a successful [save_message] leaves an array of
    at most eleven records whose last one is the record just written. *)
Theorem save_message_store_bound (m : message) (filename : string)
  (w : World) :
  snd (save_message m filename w) = Ok true ->
  exists kept,
    files (fst (save_message m filename w)) filename
    = Some (Json (JArray (kept ++ [backfill_timestamp (now w) m]))) /\
    length kept <= 10 /\
    snd (load_messages filename default_limit w) = Ok kept.
Proof.
  destruct (load_messages_pair filename default_limit w) as (w1 & res & Hload).
  destruct (load_messages_frame filename default_limit w) as (_ & Hnow & _).
  pose proof (load_messages_default_length filename w res) as Hlen.
  rewrite Hload in Hnow, Hlen |- *. simpl in Hnow, Hlen.
  rewrite (save_message_run m filename w w1 res Hload). cbv zeta.
  destruct (hd NoFault (faults w1)); cbn [fst snd files];
    intros Hok; try discriminate Hok.
  exists res. rewrite String.eqb_refl, Hnow. auto.
Qed.

Lemma save_message_store_bound_witness :
  exists kept,
    files (fst (save_message unstamped_message messages_json
                  (world_with eleven_messages))) messages_json
    = Some (Json (JArray (kept ++ [backfill_timestamp
                                     (now (world_with eleven_messages))
                                     unstamped_message]))) /\
    length kept <= 10 /\
    snd (load_messages messages_json default_limit
           (world_with eleven_messages)) = Ok kept.
Proof.
  apply (save_message_store_bound unstamped_message messages_json
           (world_with eleven_messages)).
  reflexivity.
Defined.

(** An append on a store that cannot be read (text that is not JSON, JSON
    that is not an array, or a failing read) starts the history over: the
    file then holds the new record alone, and [True] is returned. *)
Theorem save_message_replaces_unreadable_store (m : message)
  (filename : string) (w : World) :
  files w filename = Some Invalid \/
  files w filename = Some (Json JOther) \/
  (files w filename <> None /\ hd NoFault (faults w) <> NoFault) ->
  write_fault w = NoFault ->
  snd (save_message m filename w) = Ok true /\
  files (fst (save_message m filename w)) filename
  = Some (Json (JArray [backfill_timestamp (now w) m])).
Proof.
  intros Hbad Hwf.
  destruct (load_messages_pair filename default_limit w) as (w1 & res & Hload).
  destruct (load_messages_frame filename default_limit w) as (Hfa & Hnow & _).
  assert (Hres : res = []).
  { assert (H : snd (load_messages filename default_limit w) = Ok res)
      by now rewrite Hload.
    revert H. clear Hload. run.
    destruct (files w filename) as [[|[l|]]|] eqn:Hf;
      destruct (hd NoFault (faults w)); run; rewrite ?Hf; run;
      intros [= <-]; try reflexivity;
      destruct Hbad as [Hb|[Hb|[Hb1 Hb2]]]; congruence. }
  rewrite Hload in Hfa, Hnow. simpl in Hfa, Hnow. subst res.
  rewrite (save_message_run m filename w w1 [] Hload). cbv zeta.
  unfold write_fault in Hwf. rewrite Hfa, Hwf, Hnow.
  cbn [fst snd files]. now rewrite String.eqb_refl.
Qed.

Lemma save_message_replaces_unreadable_store_witness :
  files (fst (save_message unstamped_message messages_json
                (unreadable_world eleven_messages))) messages_json
  = Some (Json (JArray [backfill_timestamp
                          (now (unreadable_world eleven_messages))
                          unstamped_message])) /\
  files (fst (save_message unstamped_message messages_json nonarray_world))
    messages_json
  = Some (Json (JArray [backfill_timestamp (now nonarray_world)
                          unstamped_message])).
Proof.
  split.
  - apply (save_message_replaces_unreadable_store unstamped_message
             messages_json (unreadable_world eleven_messages)).
    + right. right. split; discriminate.
    + reflexivity.
  - apply (save_message_replaces_unreadable_store unstamped_message
             messages_json nonarray_world).
    + right. left. reflexivity.
    + reflexivity.
Defined.

Lemma save_message_small_store_witness :
  exists l',
    files (fst (save_message unstamped_message messages_json
                  (world_with three_messages))) messages_json
    = Some (Json (JArray l')) /\
    Permutation l'
      (three_messages ++ [backfill_timestamp (now (world_with three_messages))
                            unstamped_message]).
Proof.
  apply (save_message_small_store unstamped_message messages_json
           (world_with three_messages) three_messages eq_refl eq_refl eq_refl).
  simpl. lia.
Defined.

Lemma save_message_truncates_witness :
  exists l',
    files (fst (save_message unstamped_message messages_json
                  (world_with fifteen_messages))) messages_json
    = Some (Json (JArray l')) /\
    length l' = 11.
Proof.
  apply (save_message_truncates unstamped_message messages_json
           (world_with fifteen_messages) fifteen_messages
           eq_refl eq_refl eq_refl).
  simpl. lia.
Defined.

(** Reading back: after a successful append a [load_messages] whose limit is
    at least eleven, and whose read goes through, returns the record just
    written. *)
Theorem save_then_load_wide (m : message) (filename : string) (limit : Z)
  (w : World) :
  snd (save_message m filename w) = Ok true ->
  hd NoFault (faults (fst (save_message m filename w))) = NoFault ->
  (11 <= limit)%Z ->
  exists back,
    snd (load_messages filename limit (fst (save_message m filename w)))
    = Ok back /\
    In (backfill_timestamp (now w) m) back.
Proof.
  intros Hok Hnf Hlim.
  destruct (load_messages_pair filename default_limit w) as (w1 & res & Hload).
  destruct (load_messages_frame filename default_limit w) as (_ & Hnow & _).
  pose proof (load_messages_default_length filename w res) as Hlen.
  rewrite Hload in Hnow, Hlen. simpl in Hnow, Hlen.
  specialize (Hlen eq_refl).
  assert (Hfile : files (fst (save_message m filename w)) filename
                  = Some (Json (JArray (res ++ [backfill_timestamp (now w) m])))).
  { revert Hok. rewrite (save_message_run m filename w w1 res Hload). cbv zeta.
    destruct (hd NoFault (faults w1)); cbn [fst snd files];
      intros Hok; try discriminate Hok.
    now rewrite String.eqb_refl, Hnow. }
  eexists. rewrite (load_messages_array _ _ _ _ Hfile Hnf). cbn [snd].
  split; [reflexivity|].
  rewrite recent_of_positive by lia.
  rewrite last_n_all by (rewrite sort_length, length_app; simpl; lia).
  apply (Permutation_in _ (Permutation_sym (sort_perm timestamp_key _))).
  apply in_or_app. right. now left.
Qed.

Lemma save_then_load_wide_witness :
  exists back,
    snd (load_messages messages_json 11
           (fst (save_message unstamped_message messages_json
                   (world_with eleven_messages)))) = Ok back /\
    In (backfill_timestamp (now (world_with eleven_messages)) unstamped_message)
       back.
Proof.
  apply (save_then_load_wide unstamped_message messages_json 11
           (world_with eleven_messages)).
  - reflexivity.
  - reflexivity.
  - lia.
Defined.

Lemma sort_insert_snoc {A} (key : A -> string) (x m : A) (s : list A) :
  Py.le_by key x m ->
  Py.sort_insert key x (s ++ [m]) = Py.sort_insert key x s ++ [m].
Proof.
  intros Hle. induction s as [|y s IH]; simpl.
  - unfold Py.le_by in Hle. now rewrite Hle.
  - destruct (String.ltb (key y) (key x)); [now rewrite IH | reflexivity].
Qed.

(** An element that is not older than any other stays last. *)
Lemma sort_snoc {A} (key : A -> string) (m : A) (l : list A) :
  (forall x, In x l -> Py.le_by key x m) ->
  Py.sort key (l ++ [m]) = Py.sort key l ++ [m].
Proof.
  intros Hle. induction l as [|x l IH]; [reflexivity|].
  simpl. rewrite IH by (intros y Hy; apply Hle; now right).
  apply sort_insert_snoc. apply Hle. now left.
Qed.

Lemma last_n_snoc {A} (k : nat) (s : list A) (x : A) :
  1 <= k -> last_n k (s ++ [x]) = last_n (k - 1) s ++ [x].
Proof.
  intros Hk. unfold last_n. rewrite length_app, skipn_app. simpl length.
  replace (length s + 1 - k) with (length s - (k - 1)) by lia.
  now replace (length s - (k - 1) - length s) with 0 by lia.
Qed.

(** A record whose timestamp is not smaller than any stored one is, after
    the append, the last record every [load_messages] with a limit of at
    least one returns. *)
Theorem save_then_load_newest (m : message) (filename : string) (K : Z)
  (w : World) (l : list message) :
  files w filename = Some (Json (JArray l)) ->
  faults w = [] ->
  (forall x, In x l -> key_le x (backfill_timestamp (now w) m)) ->
  (1 <= K)%Z ->
  exists before,
    snd (load_messages filename K (fst (save_message m filename w)))
    = Ok (before ++ [backfill_timestamp (now w) m]).
Proof.
  intros Hf Hfa Hle HK.
  assert (Hnf : hd NoFault (faults w) = NoFault) by now rewrite Hfa.
  assert (Hwf : write_fault w = NoFault) by (unfold write_fault; now rewrite Hfa).
  destruct (save_message_file m filename w l Hf Hnf Hwf) as [_ Hfile].
  destruct (save_message_frame m filename w) as [Hfa' _].
  rewrite Hfa in Hfa'. simpl in Hfa'.
  assert (Hnf' : hd NoFault (faults (fst (save_message m filename w))) = NoFault)
    by now rewrite Hfa'.
  rewrite (load_messages_array _ _ _ _ Hfile Hnf'). cbn [snd].
  rewrite recent_of_positive by lia.
  rewrite sort_snoc.
  - rewrite last_n_snoc by lia. eexists. reflexivity.
  - intros x Hx. apply Hle.
    apply (Permutation_in _ (sort_perm timestamp_key l)).
    now apply last_n_incl in Hx.
Qed.

Lemma save_then_load_newest_witness :
  exists before,
    snd (load_messages messages_json 1
           (fst (save_message (sample_message "A" "t12") messages_json
                   (world_with eleven_messages))))
    = Ok (before ++ [backfill_timestamp (now (world_with eleven_messages))
                       (sample_message "A" "t12")]).
Proof.
  apply (save_then_load_newest (sample_message "A" "t12") messages_json 1
           (world_with eleven_messages) eleven_messages eq_refl eq_refl).
  - intros x Hx. simpl in Hx. in_cases; reflexivity.
  - lia.
Defined.

(** ** History of a call: shape of the result *)

Lemma StronglySorted_filter {A} (R : A -> A -> Prop) (f : A -> bool)
  (l : list A) :
  StronglySorted R l -> StronglySorted R (filter f l).
Proof.
  induction 1 as [|x l Hs IH Hx]; simpl; [constructor|].
  destruct (f x); [|assumption].
  constructor; [assumption|].
  apply Forall_forall. intros y Hy. apply filter_In in Hy.
  exact (proj1 (Forall_forall _ _) Hx y (proj1 Hy)).
Qed.

Lemma key_le_trans (x y z : message) : key_le x y -> key_le y z -> key_le x z.
Proof.
  unfold key_le, Py.le_by. intros Hxy Hyz. now apply ltb_le_trans with (timestamp_key y).
Qed.

Lemma recent_of_sorted (limit : Z) (l : list message) :
  Sorted key_le (recent_of limit l).
Proof.
  unfold recent_of.
  destruct (Z.of_nat (length (Py.sort timestamp_key l)) >? limit)%Z.
  - unfold Py.slice_from. apply Sorted_skipn, sort_sorted.
  - apply sort_sorted.
Qed.

(** [get_call_history] never raises, and what it returns are records of the
    asked call only, at most ten of them, in ascending timestamp order, all
    taken from the array in the file. *)
Theorem get_call_history_shape (cid filename : string) (w : World) :
  exists hist,
    snd (get_call_history cid filename w) = Ok hist /\
    Forall (fun msg => call_id msg = Some cid) hist /\
    length hist <= 10 /\
    Sorted key_le hist /\
    forall msg, In msg hist ->
      exists l, files w filename = Some (Json (JArray l)) /\ In msg l.
Proof.
  destruct (load_messages_pair filename default_limit w) as (w1 & res & Hload).
  assert (Hres : snd (load_messages filename default_limit w) = Ok res)
    by now rewrite Hload.
  rewrite (get_call_history_run cid filename w w1 res Hload). cbv zeta.
  eexists. split; [reflexivity|]. split; [|split; [|split]].
  - apply Forall_forall. intros msg Hin. apply filter_In in Hin.
    now apply opt_eqb_eq.
  - pose proof (load_messages_default_length filename w res Hres) as Hlen.
    pose proof (filter_length_le
                  (fun msg => Py.opt_eqb (call_id msg) (Some cid)) res).
    lia.
  - apply StronglySorted_Sorted, StronglySorted_filter.
    apply Sorted_StronglySorted; [exact key_le_trans|].
    destruct (load_messages_from_file _ _ _ _ Hres) as [->|(l & _ & ->)];
      [constructor | apply recent_of_sorted].
  - intros msg Hin. apply filter_In in Hin. destruct Hin as [Hin _].
    destruct (load_messages_from_file _ _ _ _ Hres) as [->|(l & Hl & ->)];
      [destruct Hin|].
    exists l. split; [assumption | now apply recent_of_incl in Hin].
Qed.

(** * Further properties of the handler *)

Lemma save_message_total (m : message) (filename : string) (w : World) :
  exists w2 b, save_message m filename w = (w2, Ok b).
Proof.
  destruct (load_messages_pair filename default_limit w) as (w1 & res & Hload).
  rewrite (save_message_run m filename w w1 res Hload). cbv zeta.
  destruct (hd NoFault (faults w1)); eauto.
Qed.

Lemma callflow_prompt_total (req : Request) (w : World) :
  exists w1 msgs, callflow_prompt req w = (w1, Ok msgs).
Proof.
  unfold callflow_prompt, bind, logger, ret.
  destruct (Py.truthy (header_call_id req)); [|eauto].
  destruct (header_call_id req) as [c|]; [|eauto].
  destruct (get_call_history_total c messages_json w) as (wg & hist & Hg).
  rewrite Hg. eauto.
Qed.

(** The handler after its prompt is built: the service is asked, and only a
    reply is saved. *)
Lemma callflow_run (llm : list langchain_message -> result string)
  (req : Request) (w w1 : World) (msgs : list langchain_message) :
  callflow_prompt req w = (w1, Ok msgs) ->
  callflow llm req w
  = let asked := mkWorld (files w1) (faults w1) (now w1) (log w1)
                   (sent w1 ++ [msgs]) in
    match llm msgs with
    | Ok reply =>
        (fst (save_message (turn_of req reply (now w1)) messages_json asked),
         Ok reply)
    | Raise e => (asked, Raise e)
    end.
Proof.
  intros Hp. unfold callflow, bind. rewrite Hp.
  unfold llm_invoke, datetime_now, ret, turn_of. cbv zeta. cbn [now].
  destruct (llm msgs) as [reply|e]; [|reflexivity].
  match goal with
  | |- context [save_message ?m ?f ?w'] =>
      destruct (save_message_total m f w') as (w2 & b & Hs); rewrite Hs
  end.
  reflexivity.
Qed.

Lemma callflow_prompt_frame (req : Request) (w : World) :
  now (fst (callflow_prompt req w)) = now w /\
  sent (fst (callflow_prompt req w)) = sent w.
Proof.
  unfold callflow_prompt, bind, logger, ret.
  destruct (Py.truthy (header_call_id req)); [|split; reflexivity].
  destruct (header_call_id req) as [c|]; [|split; reflexivity].
  destruct (load_messages_pair messages_json default_limit w)
    as (wl & res & Hload).
  destruct (load_messages_frame messages_json default_limit w)
    as (_ & Hnow & Hsent).
  rewrite Hload in Hnow, Hsent. simpl in Hnow, Hsent.
  rewrite (get_call_history_run c messages_json w wl res Hload). cbv zeta.
  split; assumption.
Qed.


(** When the service fails the failure reaches the caller and the exchange
    is not saved: the files and the log are as the prompt-building left
    them. *)
Theorem callflow_service_failure
  (llm : list langchain_message -> result string) (req : Request) (w : World)
  (msgs : list langchain_message) (e : exn) :
  snd (callflow_prompt req w) = Ok msgs ->
  llm msgs = Raise e ->
  snd (callflow llm req w) = Raise e /\
  files (fst (callflow llm req w)) = files (fst (callflow_prompt req w)) /\
  log (fst (callflow llm req w)) = log (fst (callflow_prompt req w)) /\
  sent (fst (callflow llm req w)) = sent w ++ [msgs].
Proof.
  intros Hmsgs Hllm.
  destruct (callflow_prompt_total req w) as (w1 & msgs' & Hp).
  destruct (callflow_prompt_frame req w) as [_ Hsent].
  rewrite Hp in Hmsgs, Hsent |- *. simpl in Hmsgs, Hsent.
  injection Hmsgs as ->.
  rewrite (callflow_run llm req w w1 msgs Hp). cbv zeta. rewrite Hllm.
  cbn [fst snd files log sent]. rewrite Hsent. auto.
Qed.

Lemma callflow_service_failure_witness :
  snd (callflow failing_llm (mkRequest "hello" (Some "A"))
         (world_with three_messages)) = Raise ServiceError /\
  files (fst (callflow failing_llm (mkRequest "hello" (Some "A"))
                (world_with three_messages))) messages_json
  = Some (Json (JArray three_messages)).
Proof.
  destruct (callflow_service_failure failing_llm
              (mkRequest "hello" (Some "A")) (world_with three_messages)
              (build_langchain_messages
                 [sample_message "A" "2024-01"; sample_message "A" "2024-02"]
                 "hello")
              ServiceError eq_refl eq_refl) as (Hres & Hfiles & _).
  split; [exact Hres|]. now rewrite Hfiles.
Defined.

Lemma callflow_sent_prompt (llm : list langchain_message -> result string)
  (req : Request) (w : World) (msgs : list langchain_message) :
  snd (callflow_prompt req w) = Ok msgs ->
  sent (fst (callflow llm req w)) = sent w ++ [msgs].
Proof.
  intros Hmsgs.
  destruct (callflow_prompt_total req w) as (w1 & msgs' & Hp).
  destruct (callflow_prompt_frame req w) as [_ Hsent].
  rewrite Hp in Hmsgs, Hsent. simpl in Hmsgs, Hsent. injection Hmsgs as ->.
  now rewrite (callflow_sent llm req w w1 msgs Hp), Hsent.
Qed.

Lemma callflow_prompt_history (req : Request) (w wg : World) (c : string)
  (hist : list message) :
  header_call_id req = Some c ->
  c <> "" ->
  get_call_history c messages_json w = (wg, Ok hist) ->
  callflow_prompt req w
  = (mkWorld (files wg) (faults wg) (now wg)
       (log wg ++ [InfoCallflow (Some c) (body_text req)]) (sent wg),
     Ok (build_langchain_messages hist (body_text req))).
Proof.
  intros Hc Hne Hg. unfold callflow_prompt, bind. rewrite Hc. simpl.
  apply String.eqb_neq in Hne. rewrite Hne. simpl. now rewrite Hg.
Qed.

Lemma load_messages_unreadable (filename : string) (limit : Z) (w : World) :
  files w filename = None \/
  files w filename = Some Invalid \/
  files w filename = Some (Json JOther) \/
  hd NoFault (faults w) <> NoFault ->
  snd (load_messages filename limit w) = Ok [].
Proof.
  run. destruct (files w filename) as [[|[l|]]|] eqn:Hf;
    destruct (hd NoFault (faults w)); run; rewrite ?Hf; run;
    intros [H|[H|[H|H]]]; congruence.
Qed.

(** A request that names a call while the store is missing, is not JSON,
    is not an array or cannot be read is answered without history: the
    service receives the persona and the body, as if no call were named. *)
Theorem callflow_without_readable_store
  (llm : list langchain_message -> result string) (req : Request) (w : World)
  (c : string) :
  header_call_id req = Some c ->
  c <> "" ->
  files w messages_json = None \/
  files w messages_json = Some Invalid \/
  files w messages_json = Some (Json JOther) \/
  hd NoFault (faults w) <> NoFault ->
  sent (fst (callflow llm req w))
  = sent w ++ [[SystemMessage persona; HumanMessage (body_text req)]].
Proof.
  intros Hc Hne Hbad.
  apply callflow_sent_prompt.
  destruct (load_messages_pair messages_json default_limit w)
    as (wl & res & Hload).
  pose proof (load_messages_unreadable messages_json default_limit w Hbad)
    as Hres.
  rewrite Hload in Hres. simpl in Hres. injection Hres as ->.
  pose proof (get_call_history_run c messages_json w wl [] Hload) as Hg.
  cbv zeta in Hg. simpl filter in Hg.
  now rewrite (callflow_prompt_history req w _ c [] Hc Hne Hg).
Qed.

Lemma callflow_without_readable_store_witness :
  sent (fst (callflow sample_llm (mkRequest "hello" (Some "A")) corrupt_world))
  = [[SystemMessage persona; HumanMessage "hello"]] /\
  sent (fst (callflow sample_llm (mkRequest "hello" (Some "A"))
               (unreadable_world three_messages)))
  = [[SystemMessage persona; HumanMessage "hello"]].
Proof.
  split.
  - apply (callflow_without_readable_store sample_llm
             (mkRequest "hello" (Some "A")) corrupt_world "A" eq_refl).
    + discriminate.
    + right. left. reflexivity.
  - apply (callflow_without_readable_store sample_llm
             (mkRequest "hello" (Some "A")) (unreadable_world three_messages)
             "A" eq_refl).
    + discriminate.
    + right. right. right. discriminate.
Defined.

(** The history fetch on a readable or missing store with no fault
    scheduled: the store then exists and holds the same records. *)
Lemma get_call_history_store (c filename : string) (w : World)
  (l : list message) :
  faults w = [] ->
  files w filename = Some (Json (JArray l)) \/
  (files w filename = None /\ l = []) ->
  exists wg,
    get_call_history c filename w
    = (wg, Ok (filter (of_call c) (recent_of default_limit l))) /\
    files wg filename = Some (Json (JArray l)) /\
    faults wg = [] /\ now wg = now w /\ sent wg = sent w.
Proof.
  intros Hfa Hst.
  assert (Hnf : hd NoFault (faults w) = NoFault) by now rewrite Hfa.
  destruct (load_messages_pair filename default_limit w) as (wl & res & Hload).
  destruct (load_messages_frame filename default_limit w) as (Hfa' & Hnow & Hsent).
  rewrite Hload in Hfa', Hnow, Hsent. simpl in Hfa', Hnow, Hsent.
  rewrite Hfa in Hfa'. simpl in Hfa'.
  eexists. rewrite (get_call_history_run c filename w wl res Hload). cbv zeta.
  cbn [files faults now sent].
  assert (Hwl : res = recent_of default_limit l /\
                files wl filename = Some (Json (JArray l))).
  { destruct Hst as [Hf|[Hf ->]].
    - rewrite (load_messages_array _ _ _ _ Hf Hnf) in Hload.
      injection Hload as <- <-. split; [reflexivity | exact Hf].
    - destruct (load_messages_absent filename default_limit w Hf) as [Hr Hfile].
      rewrite Hload in Hr, Hfile. rewrite Hnf in Hfile. simpl in Hr, Hfile.
      injection Hr as ->. split; [reflexivity | exact Hfile]. }
  destruct Hwl as [-> Hfile].
  split; [reflexivity|]. auto.
Qed.

(** One answered request on such a store. *)
Lemma callflow_store_step (llm : list langchain_message -> result string)
  (req : Request) (w : World) (l : list message) (c reply : string) :
  faults w = [] ->
  files w messages_json = Some (Json (JArray l)) \/
  (files w messages_json = None /\ l = []) ->
  header_call_id req = Some c ->
  c <> "" ->
  llm (build_langchain_messages
         (filter (of_call c) (recent_of default_limit l)) (body_text req))
  = Ok reply ->
  snd (callflow llm req w) = Ok reply /\
  files (fst (callflow llm req w)) messages_json
  = Some (Json (JArray (recent_of default_limit l
                          ++ [turn_of req reply (now w)]))) /\
  faults (fst (callflow llm req w)) = [] /\
  now (fst (callflow llm req w)) = now w /\
  sent (fst (callflow llm req w))
  = sent w ++ [build_langchain_messages
                 (filter (of_call c) (recent_of default_limit l))
                 (body_text req)].
Proof.
  intros Hfa Hst Hc Hne Hllm.
  destruct (get_call_history_store c messages_json w l Hfa Hst)
    as (wg & Hg & Hfile & Hfag & Hnowg & Hsentg).
  pose proof (callflow_prompt_history req w wg c _ Hc Hne Hg) as Hp.
  rewrite (callflow_run llm req w _ _ Hp). cbv zeta. rewrite Hllm.
  cbn [fst snd files faults now log sent]. rewrite Hfag.
  match goal with
  | |- context [save_message ?m ?f ?w'] =>
      destruct (save_message_file m f w' l) as [_ Hsaved];
        [exact Hfile | reflexivity | reflexivity |];
      destruct (save_message_frame m f w') as [Hfa2 Hnow2];
      pose proof (save_message_sent m f w') as Hsent2
  end.
  cbn [faults now sent tl] in Hsaved, Hfa2, Hnow2, Hsent2.
  split; [reflexivity|]. split.
  - rewrite Hsaved, (recent_of_positive default_limit l) by reflexivity.
    rewrite Hnowg. reflexivity.
  - rewrite Hfa2, Hnow2, Hsent2, Hnowg, Hsentg. auto.
Qed.

(** An append on a readable or missing store with no fault scheduled. *)
Lemma save_message_on_store (m : message) (filename : string) (w : World)
  (l : list message) :
  faults w = [] ->
  files w filename = Some (Json (JArray l)) \/
  (files w filename = None /\ l = []) ->
  snd (save_message m filename w) = Ok true /\
  files (fst (save_message m filename w)) filename
  = Some (Json (JArray (last_n 10 (Py.sort timestamp_key l)
                          ++ [backfill_timestamp (now w) m]))).
Proof.
  intros Hfa [Hf|[Hf ->]].
  - apply save_message_file; [assumption | now rewrite Hfa |].
    unfold write_fault. now rewrite Hfa.
  - destruct (load_messages_pair filename default_limit w) as (wl & res & Hload).
    destruct (load_messages_frame filename default_limit w) as (Hfa' & Hnow & _).
    destruct (load_messages_absent filename default_limit w Hf) as [Hr _].
    rewrite Hload in Hfa', Hnow, Hr. simpl in Hfa', Hnow, Hr.
    injection Hr as ->. rewrite Hfa in Hfa'. simpl in Hfa'.
    rewrite (save_message_run m filename w wl [] Hload). cbv zeta.
    rewrite Hfa', Hnow. cbn [hd fst snd files].
    now rewrite String.eqb_refl.
Qed.

Lemma callflow_prompt_store (req : Request) (w : World) (l : list message) :
  faults w = [] ->
  files w messages_json = Some (Json (JArray l)) \/
  (files w messages_json = None /\ l = []) ->
  exists w1 msgs,
    callflow_prompt req w = (w1, Ok msgs) /\
    faults w1 = [] /\ now w1 = now w /\
    (files w1 messages_json = Some (Json (JArray l)) \/
     (files w1 messages_json = None /\ l = [])).
Proof.
  intros Hfa Hst.
  destruct (Py.truthy (header_call_id req)) eqn:Ht.
  - destruct (header_call_id req) as [c|] eqn:Hc; [|discriminate Ht].
    assert (Hne : c <> "").
    { simpl in Ht. apply negb_true_iff in Ht. now apply String.eqb_neq. }
    destruct (get_call_history_store c messages_json w l Hfa Hst)
      as (wg & Hg & Hfile & Hfag & Hnowg & _).
    do 2 eexists.
    rewrite (callflow_prompt_history req w wg c _ Hc Hne Hg).
    split; [reflexivity|]. cbn [files faults now]. auto.
  - do 2 eexists. unfold callflow_prompt, bind, logger, ret. rewrite Ht.
    split; [reflexivity|]. cbn [files faults now]. auto.
Qed.

(** With no fault scheduled, every request the service answers is recorded,
    with or without a call identifier: the file then holds the ten most
    recent of the records it held, followed by the new turn (call
    identifier, body, reply, time of the request); the store is created if
    it was missing. *)
Theorem callflow_records_turn
  (llm : list langchain_message -> result string) (req : Request) (w : World)
  (l : list message) (msgs : list langchain_message) (reply : string) :
  faults w = [] ->
  files w messages_json = Some (Json (JArray l)) \/
  (files w messages_json = None /\ l = []) ->
  snd (callflow_prompt req w) = Ok msgs ->
  llm msgs = Ok reply ->
  snd (callflow llm req w) = Ok reply /\
  files (fst (callflow llm req w)) messages_json
  = Some (Json (JArray (last_n 10 (Py.sort timestamp_key l)
                          ++ [mkMessage (header_call_id req) (body_text req)
                                reply (Some (now w))]))).
Proof.
  intros Hfa Hst Hmsgs Hllm.
  destruct (callflow_prompt_store req w l Hfa Hst)
    as (w1 & msgs' & Hp & Hfa1 & Hnow1 & Hst1).
  rewrite Hp in Hmsgs. simpl in Hmsgs. injection Hmsgs as ->.
  rewrite (callflow_run llm req w w1 msgs Hp). cbv zeta. rewrite Hllm.
  cbn [fst snd]. split; [reflexivity|].
  match goal with
  | |- context [save_message ?m ?f ?w'] =>
      destruct (save_message_on_store m f w' l) as [_ Hsaved];
        [exact Hfa1 | exact Hst1 |]
  end.
  rewrite Hsaved. cbn [now]. now rewrite Hnow1.
Qed.

Lemma callflow_records_turn_witness :
  files (fst (callflow sample_llm (mkRequest "hello" None) fresh_world))
    messages_json
  = Some (Json (JArray [mkMessage None "hello"
                          "Sure, let me check your policy."
                          (Some "2024-05-01T10:00:00")])).
Proof.
  destruct (callflow_records_turn sample_llm (mkRequest "hello" None)
              fresh_world []
              [SystemMessage persona; HumanMessage "hello"]
              "Sure, let me check your policy." eq_refl) as [_ Hfile].
  - right. split; reflexivity.
  - reflexivity.
  - reflexivity.
  - exact Hfile.
Defined.

(** The handler remembers: on a store of fewer than ten records, none
    stamped later than the clock, a request of call [c] that the service
    answers is part of the next prompt of call [c], which is the first
    prompt with the answer and the new body added at its end. *)
Theorem callflow_remembers_turn
  (llm : list langchain_message -> result string) (req1 req2 : Request)
  (w : World) (l : list message) (c reply : string) :
  faults w = [] ->
  files w messages_json = Some (Json (JArray l)) \/
  (files w messages_json = None /\ l = []) ->
  length l < 10 ->
  (forall x, In x l -> str_le (timestamp_key x) (now w)) ->
  header_call_id req1 = Some c ->
  header_call_id req2 = Some c ->
  c <> "" ->
  llm (SystemMessage persona
         :: flat_map turn_entries
              (filter (of_call c) (Py.sort timestamp_key l))
            ++ [HumanMessage (body_text req1)]) = Ok reply ->
  sent (fst (callflow llm req2 (fst (callflow llm req1 w))))
  = sent w ++
    [SystemMessage persona
       :: flat_map turn_entries (filter (of_call c) (Py.sort timestamp_key l))
          ++ [HumanMessage (body_text req1)];
     SystemMessage persona
       :: flat_map turn_entries (filter (of_call c) (Py.sort timestamp_key l))
          ++ [HumanMessage (body_text req1); AIMessage reply;
              HumanMessage (body_text req2)]].
Proof.
  intros Hfa Hst Hlen Hle Hc1 Hc2 Hne Hllm.
  assert (Hrec : recent_of default_limit l = Py.sort timestamp_key l).
  { rewrite recent_of_positive by reflexivity.
    apply last_n_all. rewrite sort_length. simpl. lia. }
  rewrite <- build_langchain_messages_eq, <- Hrec in Hllm.
  destruct (callflow_store_step llm req1 w l c reply Hfa Hst Hc1 Hne Hllm)
    as (_ & Hfile & Hfa2 & _ & Hsent).
  rewrite Hrec in Hfile, Hsent.
  set (w2 := fst (callflow llm req1 w)) in *.
  set (turn := turn_of req1 reply (now w)) in *.
  assert (Hsorted : Py.sort timestamp_key (Py.sort timestamp_key l ++ [turn])
                    = Py.sort timestamp_key l ++ [turn]).
  { rewrite sort_snoc.
    - now rewrite (sort_of_sorted timestamp_key _ (sort_sorted timestamp_key l)).
    - intros x Hx. apply Hle.
      now apply (Permutation_in _ (sort_perm timestamp_key l)). }
  assert (Hrec2 : recent_of default_limit (Py.sort timestamp_key l ++ [turn])
                  = Py.sort timestamp_key l ++ [turn]).
  { rewrite recent_of_positive by reflexivity. rewrite Hsorted.
    apply last_n_all. rewrite length_app, sort_length. simpl. lia. }
  destruct (get_call_history_store c messages_json w2 _ Hfa2 (or_introl Hfile))
    as (wg & Hg & _).
  rewrite Hrec2 in Hg.
  pose proof (callflow_prompt_history req2 w2 wg c _ Hc2 Hne Hg) as Hp.
  rewrite (callflow_sent_prompt llm req2 w2 _ (f_equal snd Hp)).
  rewrite Hsent, <- app_assoc. simpl app.
  assert (Hturn : filter (of_call c) [turn] = [turn]).
  { unfold turn, turn_of, of_call. simpl. rewrite Hc1. simpl.
    now rewrite String.eqb_refl. }
  rewrite !build_langchain_messages_eq.
  rewrite filter_app, Hturn, flat_map_app, <- app_assoc.
  reflexivity.
Qed.

Lemma callflow_remembers_turn_witness :
  sent (fst (callflow sample_llm (mkRequest "and my car?" (Some "A"))
               (fst (callflow sample_llm (mkRequest "hello" (Some "A"))
                       fresh_world))))
  = [[SystemMessage persona; HumanMessage "hello"];
     [SystemMessage persona; HumanMessage "hello";
      AIMessage "Sure, let me check your policy.";
      HumanMessage "and my car?"]].
Proof.
  apply (callflow_remembers_turn sample_llm (mkRequest "hello" (Some "A"))
           (mkRequest "and my car?" (Some "A")) fresh_world [] "A"
           "Sure, let me check your policy." eq_refl).
  - right. split; reflexivity.
  - simpl. lia.
  - intros x [].
  - reflexivity.
  - reflexivity.
  - discriminate.
  - reflexivity.
Defined.

(** ** The store is one file *)


